(** * The application intake handler of [api/apply.js]

    A shallow embedding of the serverless handler that receives talent and
    vendor applications, and the properties of it that the specification
    states.  The file follows the source top to bottom: the constants, the
    three helpers ([stripHtml], [isValidEmail], [isValidUrl]) and the
    [handler].  What the source takes from the JavaScript platform (strings,
    numbers, values and their coercions, regular expressions, [JSON.parse])
    is modelled first. *)

From Stdlib Require Import List Bool Arith ZArith NArith Lia.
From Stdlib Require Import Ascii String DecimalString.
From Stdlib Require Import SpecFloat.
Import ListNotations.

(** ** Strings

    A JavaScript string is a sequence of UTF-16 code units; [length],
    the regular expressions without the [u] flag and [trim] all work on
    code units. *)

Definition code_unit := N.
Definition jsstring := list code_unit.

(** [lit] reads an ASCII literal of this file as a JavaScript string. *)
Definition lit (s : string) : jsstring :=
  map N_of_ascii (list_ascii_of_string s).

Definition chr (a : ascii) : code_unit := N_of_ascii a.

Fixpoint jsstring_eqb (a b : jsstring) : bool :=
  match a, b with
  | [], [] => true
  | x :: a', y :: b' => N.eqb x y && jsstring_eqb a' b'
  | _, _ => false
  end.

(** [Array.prototype.includes] on an array of strings, for a string. *)
Definition includes (l : list jsstring) (s : jsstring) : bool :=
  existsb (jsstring_eqb s) l.

(** [String.prototype.startsWith]. *)
Fixpoint startsWith (s prefix : jsstring) {struct prefix} : bool :=
  match prefix, s with
  | [], _ => true
  | p :: prefix', c :: s' => N.eqb c p && startsWith s' prefix'
  | _ :: _, [] => false
  end.

(** The code units that are WhiteSpace or LineTerminator in ECMAScript:
    what the class [\s] matches and what [trim] removes. *)
Definition is_space (c : code_unit) : bool :=
  ((9 <=? c) && (c <=? 13) || (c =? 32) || (c =? 160) || (c =? 5760)
   || (8192 <=? c) && (c <=? 8202) || (c =? 8232) || (c =? 8233)
   || (c =? 8239) || (c =? 8287) || (c =? 12288) || (c =? 65279))%N.

Fixpoint trimStart (s : jsstring) : jsstring :=
  match s with
  | c :: r => if is_space c then trimStart r else s
  | [] => []
  end.

Definition trimEnd (s : jsstring) : jsstring := rev (trimStart (rev s)).

(** [String.prototype.trim]. *)
Definition trim (s : jsstring) : jsstring := trimEnd (trimStart s).

(** ** Numbers

    A Number is an IEEE 754 binary64 value; [spec_float] has exactly the
    values a JavaScript program can tell apart (one NaN, two zeros, two
    infinities, the finite values). *)

Definition number := spec_float.

Definition prec : Z := 53.
Definition emax : Z := 1024.

Definition pos_zero : number := S754_zero false.

(** The Number nearest to [m * 10 ^ e] (ties to even), negated when [neg]:
    the value of a decimal literal with digits [m] and exponent [e]. *)
Definition of_decimal (neg : bool) (m : N) (e : Z) : number :=
  match m with
  | N0 => S754_zero neg
  | Npos p =>
      match e with
      | Zneg k =>
          SFdiv prec emax (S754_finite neg p 0)
                (S754_finite false (10 ^ k)%positive 0)
      | _ => binary_round prec emax neg (p * Z.to_pos (10 ^ e))%positive 0
      end
  end.

(** Digits. [digit_val base c] is the value of the code unit [c] as a digit
    in [base] (at most 16), if it is one. *)
Definition digit_val (base : N) (c : code_unit) : option N :=
  let v := (if (48 <=? c) && (c <=? 57) then Some (c - 48)
            else if (97 <=? c) && (c <=? 102) then Some (c - 87)
            else if (65 <=? c) && (c <=? 70) then Some (c - 55)
            else None)%N in
  match v with
  | Some d => if (d <? base)%N then Some d else None
  | None => None
  end.

(** [span_digits base acc n s]: the longest prefix of [s] made of digits,
    read as a number continuing [acc]; [n] counts the digits read. *)
Fixpoint span_digits (base : N) (acc : N) (n : nat) (s : jsstring)
  : N * nat * jsstring :=
  match s with
  | c :: r =>
      match digit_val base c with
      | Some d => span_digits base (acc * base + d)%N (S n) r
      | None => (acc, n, s)
      end
  | [] => (acc, n, s)
  end.

(** An optional sign: [(is_negative, rest)]. *)
Definition read_sign (s : jsstring) : bool * jsstring :=
  match s with
  | c :: r => if (c =? 45)%N then (true, r)
              else if (c =? 43)%N then (false, r) else (false, s)
  | [] => (false, s)
  end.

(** An ExponentPart that must reach the end of the string: [e] or [E], an
    optional sign, at least one digit. An empty string is exponent 0. *)
Definition read_exponent_to_end (s : jsstring) : option Z :=
  match s with
  | [] => Some 0%Z
  | c :: r =>
      if (c =? 101)%N || (c =? 69)%N then
        let '(neg, r1) := read_sign r in
        match span_digits 10 0 0 r1 with
        | (_, O, _) => None
        | (e, _, []) => Some (if neg then (- Z.of_N e)%Z else Z.of_N e)
        | _ => None
        end
      else None
  end.

(** StrUnsignedDecimalLiteral without [Infinity]: digits, an optional
    fraction, an optional exponent; one of the two digit runs around the
    point may be empty, not both. The result is [(m, e)] for [m * 10^e]. *)
Definition read_unsigned_decimal (s : jsstring) : option (N * Z) :=
  let '(ip, ni, r1) := span_digits 10 0 0 s in
  let '(m, nf, r2, ok) :=
    match r1 with
    | c :: r =>
        if (c =? 46)%N then
          let '(m, nf, r2) := span_digits 10 ip 0 r in
          (m, nf, r2, negb (Nat.eqb ni 0 && Nat.eqb nf 0))
        else (ip, O, r1, negb (Nat.eqb ni 0))
    | [] => (ip, O, r1, negb (Nat.eqb ni 0))
    end in
  if ok then
    match read_exponent_to_end r2 with
    | Some e => Some (m, (e - Z.of_nat nf)%Z)
    | None => None
    end
  else None.

(** A literal [0x..], [0o..] or [0b..] (either case), digits to the end. *)
Definition read_non_decimal (s : jsstring) : option N :=
  match s with
  | z :: p :: r =>
      if (z =? 48)%N then
        let base := (if (p =? 120) || (p =? 88) then 16
                     else if (p =? 111) || (p =? 79) then 8
                     else if (p =? 98) || (p =? 66) then 2 else 0)%N in
        if (base =? 0)%N then None
        else match span_digits base 0 0 r with
             | (_, O, _) => None
             | (v, _, []) => Some v
             | _ => None
             end
      else None
  | _ => None
  end.

(** StringToNumber: the argument is trimmed; the empty string is [+0];
    otherwise a StrNumericLiteral gives its value and anything else NaN. *)
Definition StringToNumber (s : jsstring) : number :=
  let t := trim s in
  match t with
  | [] => pos_zero
  | _ =>
      match read_non_decimal t with
      | Some v => of_decimal false v 0
      | None =>
          let '(neg, u) := read_sign t in
          if jsstring_eqb u (lit "Infinity") then S754_infinity neg
          else match read_unsigned_decimal u with
               | Some (m, e) => of_decimal neg m e
               | None => S754_nan
               end
      end
  end.

(** Structural equality of Numbers (NaN equals itself here). *)
Definition number_same (x y : number) : bool :=
  match x, y with
  | S754_nan, S754_nan => true
  | S754_zero a, S754_zero b => Bool.eqb a b
  | S754_infinity a, S754_infinity b => Bool.eqb a b
  | S754_finite a m e, S754_finite b m' e' =>
      Bool.eqb a b && Pos.eqb m m' && Z.eqb e e'
  | _, _ => false
  end.

(** The decimal digits of a natural number. *)
Definition dec_digits (n : N) : jsstring :=
  lit (NilZero.string_of_uint (N.to_uint n)).

(** Number::toString, radix 10, for the positive finite value [m * 2^e].
    The digits are the shortest decimal [s] (with [k] digits) and exponent
    [n] such that [s * 10^(n-k)] converts back to the value; of two such
    decimals the closer one is taken, the even one on a tie. *)
Section Shortest.
Local Open Scope Z_scope.
Variables (m : positive) (e : Z).

Let num : Z := match e with Zneg _ => Zpos m | _ => Zpos m * 2 ^ e end.
Let den : Z := match e with Zneg p => 2 ^ Zpos p | _ => 1 end.

(** [10^(n-1) <= m * 2^e < 10^n]. *)
Definition decimal_exponent : Z :=
  Z.of_nat (List.length (dec_digits (Z.to_N (num * 10 ^ 400 / den)))) - 400.

Definition converts_back (s : Z) (n k : Z) : bool :=
  number_same (of_decimal false (Z.to_N s) (n - k)) (S754_finite false m e).

Fixpoint shortest_from (fuel : nat) (k : Z) : Z * Z :=
  let n := decimal_exponent in
  let a := if (0 <=? k - n) then num * 10 ^ (k - n) else num in
  let b := if (0 <=? k - n) then den else den * 10 ^ (n - k) in
  let lo := a / b in
  let hi := lo + 1 in
  let r := a mod b in
  let pick (s : Z) := if s =? 10 ^ k then (s / 10, n + 1) else (s, n) in
  match fuel with
  | O => (lo, n)
  | S fuel' =>
      match converts_back lo n k, converts_back hi n k with
      | true, true =>
          match 2 * r ?= b with
          | Lt => pick lo
          | Gt => pick hi
          | Eq => if Z.even lo then pick lo else pick hi
          end
      | true, false => pick lo
      | false, true => pick hi
      | false, false => shortest_from fuel' (k + 1)
      end
  end.

Definition shortest_decimal : Z * Z := shortest_from 17 1.

(** The digits [s] and the exponent [n] laid out as Number::toString does:
    plain digits up to 21 integer digits and down to 6 leading zeros of
    a fraction, exponent notation otherwise. *)
Definition format_decimal (s n : Z) : jsstring :=
  let ds := dec_digits (Z.to_N s) in
  let k := Z.of_nat (List.length ds) in
  if (k <=? n) && (n <=? 21) then ds ++ repeat (chr "0") (Z.to_nat (n - k))
  else if (0 <? n) && (n <=? 21) then
    firstn (Z.to_nat n) ds ++ lit "." ++ skipn (Z.to_nat n) ds
  else if (-6 <? n) && (n <=? 0) then
    lit "0." ++ repeat (chr "0") (Z.to_nat (- n)) ++ ds
  else
    let e := n - 1 in
    let exponent :=
      lit "e" ++ (if e <? 0 then lit "-" else lit "+")
              ++ dec_digits (Z.to_N (Z.abs e)) in
    match ds with
    | d :: (_ :: _) as rest => d :: lit "." ++ rest ++ exponent
    | _ => ds ++ exponent
    end.
End Shortest.

Definition Number_toString (x : number) : jsstring :=
  match x with
  | S754_nan => lit "NaN"
  | S754_zero _ => lit "0"
  | S754_infinity neg => (if neg then lit "-" else []) ++ lit "Infinity"
  | S754_finite neg m e =>
      let '(s, n) := shortest_decimal m e in
      (if neg then lit "-" else []) ++ format_decimal s n
  end.

(** ** Values

    The values [JSON.parse] can produce, and [undefined] (what reading a
    missing property yields). An object is its list of own properties. *)

#[local] Set Warnings "-register-all".

Inductive value : Type :=
| VUndefined
| VNull
| VBool (b : bool)
| VNum (x : number)
| VStr (s : jsstring)
| VArr (elems : list value)
| VObj (props : list (jsstring * value)).

(** ToBoolean: what [!v], [v || w] and [if (v)] test. *)
Definition ToBoolean (v : value) : bool :=
  match v with
  | VUndefined | VNull => false
  | VBool b => b
  | VNum (S754_zero _) | VNum S754_nan => false
  | VNum _ => true
  | VStr s => negb (jsstring_eqb s [])
  | VArr _ | VObj _ => true
  end.

(** [a || b]. *)
Definition or_else (a b : value) : value := if ToBoolean a then a else b.

(** The first property named [k] of a property list. *)
Fixpoint lookup (k : jsstring) (props : list (jsstring * value))
  : option value :=
  match props with
  | [] => None
  | (k', v) :: rest => if jsstring_eqb k k' then Some v else lookup k rest
  end.

(** ToString, [None] when the conversion throws a [TypeError].

    An array is the [join] of its elements with commas, where [undefined]
    and [null] elements are empty and the others are converted in turn. An
    object is converted by the [toString] it has: the one it inherits gives
    ["[object Object]"]; an own property named [toString] hides that one,
    and as no value of this type is a function, the conversion then finds
    nothing to call that returns a primitive ([valueOf] returns the object
    itself) and throws. *)
Fixpoint ToString (v : value) : option jsstring :=
  match v with
  | VUndefined => Some (lit "undefined")
  | VNull => Some (lit "null")
  | VBool b => Some (if b then lit "true" else lit "false")
  | VNum x => Some (Number_toString x)
  | VStr s => Some s
  | VArr elems =>
      (fix join (l : list value) : option jsstring :=
         match l with
         | [] => Some []
         | x :: r =>
             let sx := match x with
                       | VUndefined | VNull => Some []
                       | _ => ToString x
                       end in
             match r with
             | [] => sx
             | _ :: _ =>
                 match sx with
                 | None => None
                 | Some first =>
                     match join r with
                     | None => None
                     | Some others => Some (first ++ lit "," ++ others)
                     end
                 end
             end
         end) elems
  | VObj props =>
      match lookup (lit "toString") props with
      | Some _ => None
      | None => Some (lit "[object Object]")
      end
  end.

(** ToNumber, what [Number(v)] returns; [None] when it throws. Arrays and
    objects go through their string: [valueOf] returns the object itself,
    so the conversion falls back on [toString]. *)
Definition ToNumber (v : value) : option number :=
  match v with
  | VUndefined => Some S754_nan
  | VNull => Some pos_zero
  | VBool b => Some (if b then of_decimal false 1 0 else pos_zero)
  | VNum x => Some x
  | VStr s => Some (StringToNumber s)
  | VArr _ | VObj _ =>
      match ToString v with
      | Some s => Some (StringToNumber s)
      | None => None
      end
  end.

(** [v.k] for a value [v] that is neither [undefined] nor [null] and one
    of the property names the handler reads. None of them is a property of
    [Object.prototype], [Array.prototype], [String.prototype] or the other
    prototypes, so only an object's own properties can answer. *)
Definition get (v : value) (k : jsstring) : value :=
  match v with
  | VObj props => match lookup k props with
                  | Some x => x
                  | None => VUndefined
                  end
  | _ => VUndefined
  end.

(** [o.k = v] on an object: replaces the property or adds it last. *)
Fixpoint set_prop (k : jsstring) (v : value) (props : list (jsstring * value))
  : list (jsstring * value) :=
  match props with
  | [] => [(k, v)]
  | (k', v') :: rest =>
      if jsstring_eqb k k' then (k, v) :: rest
      else (k', v') :: set_prop k v rest
  end.

(** ** Regular expressions

    The patterns of the source use character classes, sequence and
    repetition. [matches r s] says that the whole of [s] is a match of
    [r]; [accepts] decides it by derivatives. *)

Inductive regex : Type :=
| Void
| Eps
| Class (p : code_unit -> bool)
| Seq (r1 r2 : regex)
| Alt (r1 r2 : regex)
| Star (r : regex).

Definition Plus (r : regex) : regex := Seq r (Star r).

Inductive matches : regex -> jsstring -> Prop :=
| m_eps : matches Eps []
| m_class p c : p c = true -> matches (Class p) [c]
| m_seq r1 r2 s1 s2 :
    matches r1 s1 -> matches r2 s2 -> matches (Seq r1 r2) (s1 ++ s2)
| m_alt_l r1 r2 s : matches r1 s -> matches (Alt r1 r2) s
| m_alt_r r1 r2 s : matches r2 s -> matches (Alt r1 r2) s
| m_star_nil r : matches (Star r) []
| m_star_app r s1 s2 :
    matches r s1 -> matches (Star r) s2 -> matches (Star r) (s1 ++ s2).

Fixpoint nullable (r : regex) : bool :=
  match r with
  | Void => false
  | Eps => true
  | Class _ => false
  | Seq r1 r2 => nullable r1 && nullable r2
  | Alt r1 r2 => nullable r1 || nullable r2
  | Star _ => true
  end.

(** Sequence and alternative that drop a [Void] side at once, so that
    derivatives stay small. *)
Definition seq (r1 r2 : regex) : regex :=
  match r1, r2 with
  | Void, _ | _, Void => Void
  | _, _ => Seq r1 r2
  end.

Definition alt (r1 r2 : regex) : regex :=
  match r1, r2 with
  | Void, r | r, Void => r
  | _, _ => Alt r1 r2
  end.

Fixpoint deriv (c : code_unit) (r : regex) : regex :=
  match r with
  | Void | Eps => Void
  | Class p => if p c then Eps else Void
  | Seq r1 r2 =>
      if nullable r1 then alt (seq (deriv c r1) r2) (deriv c r2)
      else seq (deriv c r1) r2
  | Alt r1 r2 => alt (deriv c r1) (deriv c r2)
  | Star r1 => seq (deriv c r1) (Star r1)
  end.

Fixpoint accepts (r : regex) (s : jsstring) : bool :=
  match s with
  | [] => nullable r
  | c :: s' => accepts (deriv c r) s'
  end.

Definition is_char (a : ascii) (c : code_unit) : bool := N.eqb c (chr a).
Definition not_char (a : ascii) (c : code_unit) : bool := negb (N.eqb c (chr a)).

(** ** The constants of the source *)

Definition ALLOWED_ORIGINS : list jsstring :=
  [ lit "https://thirty3labs.com"; lit "https://www.thirty3labs.com" ].

Definition VALID_TYPES : list jsstring := [ lit "talent"; lit "vendor" ].

Definition TALENT_DISCIPLINES : list jsstring :=
  [ lit "Photography"; lit "Videography"; lit "Directing";
    lit "Graphic Design"; lit "Motion Design"; lit "Web Development";
    lit "App Development"; lit "Production Management";
    lit "Event Management"; lit "AV Engineering"; lit "Sound Design";
    lit "Lighting Design"; lit "Fabrication"; lit "Styling"; lit "Other" ].

Definition VENDOR_TYPES : list jsstring :=
  [ lit "Fabrication & Build"; lit "Print & Signage";
    lit "AV & Equipment Rental"; lit "Catering & F&B"; lit "Venue";
    lit "Furniture & Decor Rental"; lit "Staffing";
    lit "Transportation & Logistics"; lit "Other" ].

(** ** [stripHtml]

    [str.replace(/<[^>]*>/g, '')]: scanning from the left, every match of
    the pattern is dropped and the scan resumes after it. A match starts
    at a [<] and runs to the first [>] after it; a [<] with no [>] after
    it starts no match and is kept. *)

Definition tag_pattern : regex :=
  Seq (Class (is_char "<")) (Seq (Star (Class (not_char ">"))) (Class (is_char ">"))).

Fixpoint has_gt (s : jsstring) : bool :=
  match s with
  | [] => false
  | c :: r => is_char ">" c || has_gt r
  end.

Fixpoint replace_tags (s : jsstring) : jsstring :=
  match s with
  | [] => []
  | c :: r =>
      if is_char "<" c && has_gt r then inside_tag r
      else c :: replace_tags r
  end
with inside_tag (s : jsstring) : jsstring :=
  match s with
  | [] => []
  | c :: r => if is_char ">" c then replace_tags r else inside_tag r
  end.

Definition stripHtml (str : value) : jsstring :=
  match str with
  | VStr s => trim (replace_tags s)
  | _ => []
  end.

(** ** [isValidEmail]: [/^[^\s@]+@[^\s@]+\.[^\s@]+$/.test(email)] *)

Definition email_char (c : code_unit) : bool :=
  negb (is_space c) && not_char "@" c.

Definition email_pattern : regex :=
  Seq (Plus (Class email_char))
      (Seq (Class (is_char "@"))
           (Seq (Plus (Class email_char))
                (Seq (Class (is_char "."))
                     (Plus (Class email_char))))).

Definition isValidEmail (email : jsstring) : bool :=
  accepts email_pattern email.

(** ** [JSON.parse]

    The JSON grammar: whitespace is space, tab, line feed and carriage
    return; a value is an object, an array, a string, a number or one of
    [true], [false], [null]. A property that appears twice keeps its last
    value. The parser reads one value from the front of the text. *)

Inductive parse_result : Type :=
| Parsed (v : value) (rest : jsstring)
| SyntaxError
| OutOfFuel.

Definition json_ws (c : code_unit) : bool :=
  ((c =? 32) || (c =? 9) || (c =? 10) || (c =? 13))%N.

Fixpoint skip_ws (s : jsstring) : jsstring :=
  match s with
  | c :: r => if json_ws c then skip_ws r else s
  | [] => []
  end.

(** Four hexadecimal digits as a code unit. *)
Definition hex4 (a b c d : code_unit) : option code_unit :=
  match digit_val 16 a, digit_val 16 b, digit_val 16 c, digit_val 16 d with
  | Some x, Some y, Some z, Some w => Some (((x * 16 + y) * 16 + z) * 16 + w)%N
  | _, _, _, _ => None
  end.

(** The characters of a string after its opening quote, up to the closing
    quote: [(contents, rest)]. Control characters below U+0020 are not
    allowed; a backslash starts one of the nine escapes. *)
Fixpoint parse_string_chars (s : jsstring) : option (jsstring * jsstring) :=
  let cons (c : code_unit) (k : option (jsstring * jsstring)) :=
    match k with
    | Some (body, rest) => Some (c :: body, rest)
    | None => None
    end in
  match s with
  | [] => None
  | c :: r =>
      if (c =? 34)%N then Some ([], r)
      else if (c <? 32)%N then None
      else if (c =? 92)%N then
        match r with
        | e :: r1 =>
            if (e =? 34)%N || (e =? 92)%N || (e =? 47)%N
            then cons e (parse_string_chars r1)
            else if (e =? 98)%N then cons 8%N (parse_string_chars r1)
            else if (e =? 102)%N then cons 12%N (parse_string_chars r1)
            else if (e =? 110)%N then cons 10%N (parse_string_chars r1)
            else if (e =? 114)%N then cons 13%N (parse_string_chars r1)
            else if (e =? 116)%N then cons 9%N (parse_string_chars r1)
            else if (e =? 117)%N then
              match r1 with
              | h1 :: h2 :: h3 :: h4 :: r2 =>
                  match hex4 h1 h2 h3 h4 with
                  | Some u => cons u (parse_string_chars r2)
                  | None => None
                  end
              | _ => None
              end
            else None
        | [] => None
        end
      else cons c (parse_string_chars r)
  end.

(** A JSON number: an optional minus, an integer part without a leading
    zero (unless it is the single digit 0), an optional fraction with at
    least one digit, an optional exponent with at least one digit. *)
Definition parse_number (s : jsstring) : option (number * jsstring) :=
  let '(neg, r0) := match s with
                    | c :: r => if (c =? 45)%N then (true, r) else (false, s)
                    | [] => (false, s)
                    end in
  let int_part :=
    match r0 with
    | c :: r =>
        if (c =? 48)%N then Some (0%N, r)
        else match span_digits 10 0 0 r0 with
             | (_, O, _) => None
             | (ip, _, r1) => Some (ip, r1)
             end
    | [] => None
    end in
  match int_part with
  | None => None
  | Some (ip, r1) =>
      let fraction :=
        match r1 with
        | c :: r =>
            if (c =? 46)%N then
              match span_digits 10 ip 0 r with
              | (_, O, _) => None
              | (m, nf, r2) => Some (m, nf, r2)
              end
            else Some (ip, O, r1)
        | [] => Some (ip, O, r1)
        end in
      match fraction with
      | None => None
      | Some (m, nf, r2) =>
          let exponent :=
            match r2 with
            | c :: r =>
                if (c =? 101)%N || (c =? 69)%N then
                  let '(eneg, r3) := read_sign r in
                  match span_digits 10 0 0 r3 with
                  | (_, O, _) => None
                  | (e, _, r4) =>
                      Some (if eneg then (- Z.of_N e)%Z else Z.of_N e, r4)
                  end
                else Some (0%Z, r2)
            | [] => Some (0%Z, r2)
            end in
          match exponent with
          | None => None
          | Some (e, r4) => Some (of_decimal neg m (e - Z.of_nat nf), r4)
          end
      end
  end.

(** [literal word v s]: the text [s] starts with [word], which denotes [v]. *)
Definition literal (word : jsstring) (v : value) (s : jsstring)
  : parse_result :=
  if startsWith s word then Parsed v (skipn (List.length word) s)
  else SyntaxError.

Fixpoint parse_value (fuel : nat) (s : jsstring) : parse_result :=
  match fuel with
  | O => OutOfFuel
  | S fuel' =>
      match skip_ws s with
      | [] => SyntaxError
      | c :: r =>
          if is_char "{" c then
            match skip_ws r with
            | c' :: r' =>
                if is_char "}" c' then Parsed (VObj []) r'
                else parse_members fuel' [] r
            | [] => SyntaxError
            end
          else if is_char "[" c then
            match skip_ws r with
            | c' :: r' =>
                if is_char "]" c' then Parsed (VArr []) r'
                else parse_elements fuel' [] r
            | [] => SyntaxError
            end
          else if (c =? 34)%N then
            match parse_string_chars r with
            | Some (str, rest) => Parsed (VStr str) rest
            | None => SyntaxError
            end
          else if is_char "t" c then literal (lit "true") (VBool true) (c :: r)
          else if is_char "f" c then literal (lit "false") (VBool false) (c :: r)
          else if is_char "n" c then literal (lit "null") VNull (c :: r)
          else
            match parse_number (c :: r) with
            | Some (x, rest) => Parsed (VNum x) rest
            | None => SyntaxError
            end
      end
  end

with parse_elements (fuel : nat) (acc : list value) (s : jsstring)
  : parse_result :=
  match fuel with
  | O => OutOfFuel
  | S fuel' =>
      match parse_value fuel' s with
      | Parsed v rest =>
          match skip_ws rest with
          | c :: r =>
              if is_char "," c then parse_elements fuel' (acc ++ [v]) r
              else if is_char "]" c then Parsed (VArr (acc ++ [v])) r
              else SyntaxError
          | [] => SyntaxError
          end
      | failure => failure
      end
  end

with parse_members (fuel : nat) (acc : list (jsstring * value)) (s : jsstring)
  : parse_result :=
  match fuel with
  | O => OutOfFuel
  | S fuel' =>
      match skip_ws s with
      | q :: r =>
          if (q =? 34)%N then
            match parse_string_chars r with
            | Some (key, rest) =>
                match skip_ws rest with
                | colon :: r1 =>
                    if is_char ":" colon then
                      match parse_value fuel' r1 with
                      | Parsed v rest1 =>
                          match skip_ws rest1 with
                          | c :: r2 =>
                              if is_char "," c
                              then parse_members fuel' (set_prop key v acc) r2
                              else if is_char "}" c
                              then Parsed (VObj (set_prop key v acc)) r2
                              else SyntaxError
                          | [] => SyntaxError
                          end
                      | failure => failure
                      end
                    else SyntaxError
                | [] => SyntaxError
                end
            | None => SyntaxError
            end
          else SyntaxError
      | [] => SyntaxError
      end
  end.

(** [JSON.parse(text)]: one value, whitespace around it and nothing else.
    [None] stands for the SyntaxError that is thrown otherwise. The fuel
    is enough for every text (see [parse_value_fuel]). *)
Definition JSON_parse (text : jsstring) : option value :=
  match parse_value (2 * List.length text + 1) text with
  | Parsed v rest =>
      match skip_ws rest with
      | [] => Some v
      | _ :: _ => None
      end
  | _ => None
  end.

(** ** Requests, responses and the outside world *)

(** The request headers the handler reads; a header that was not sent is
    [undefined]. *)
Record request_headers : Type := {
  origin : option jsstring;
  x_forwarded_for : option jsstring;
  x_real_ip : option jsstring;
  user_agent : option jsstring
}.

Record request : Type := {
  method : jsstring;
  req_headers : request_headers;
  body : value
}.

(** [process.env]: each variable is a string or [undefined]. *)
Record environment : Type := {
  SUPABASE_URL : option jsstring;
  SUPABASE_SERVICE_ROLE_KEY : option jsstring
}.

(** What the handler did with [res]: the status, the headers in the order
    they were set, and the argument of [json] ([None] after [end()]). *)
Record response : Type := {
  status : N;
  headers : list (jsstring * jsstring);
  json : option value
}.

(** The call to [fetch]. Its [body] is [JSON.stringify(row)]; the request
    carries the [row] object that is serialized, not the text. (The text
    has every string of the row, and its numbers if they are finite:
    [JSON.stringify] writes [null] for an infinity.) *)
Record fetch_request : Type := {
  fetch_url : jsstring;
  fetch_method : jsstring;
  fetch_headers : list (jsstring * jsstring);
  fetch_row : value
}.

(** What the persistence API answers: a response with its [ok] flag, its
    status and its text ([None] when reading the text fails), or a
    rejected promise. *)
Inductive fetch_outcome : Type :=
| Responded (ok : bool) (code : N) (text : option jsstring)
| Rejected.

Inductive event : Type :=
| Fetched (r : fetch_request)
| ConsoleError (label : jsstring).

(** A run of the handler: the response and what happened on the way. *)
Record outcome : Type := {
  reply : response;
  trace : list event
}.

Definition header (h : option jsstring) : value :=
  match h with
  | Some s => VStr s
  | None => VUndefined
  end.

Definition env_var (v : option jsstring) : value := header v.

(** A variable of [process.env] written into a template literal or a
    header: the string it is. *)
Definition env_text (v : option jsstring) : jsstring :=
  match v with
  | Some s => s
  | None => lit "undefined"
  end.

Definition obj_error (msg : string) : value :=
  VObj [(lit "error", VStr (lit msg))].

Definition obj_ok : value := VObj [(lit "ok", VBool true)].

(** [if (cond) errors.push(msg)]. *)
Definition push_if (cond : bool) (msg : string) (errors : list jsstring)
  : list jsstring :=
  if cond then errors ++ [lit msg] else errors.

(** [!s] for a string. *)
Definition empty (s : jsstring) : bool := jsstring_eqb s [].

(** [s || null] for a string. *)
Definition or_null (s : jsstring) : value := or_else (VStr s) VNull.

(** [Array.isArray(v) ? v.map(stripHtml).filter(Boolean) : null]. *)
Definition strip_array (v : value) : value :=
  match v with
  | VArr elems =>
      VArr (map VStr (filter (fun s => negb (empty s)) (map stripHtml elems)))
  | _ => VNull
  end.

(** Lines 99-113: the [row] as it is first built. *)
Definition common_properties (req : request) (b : value)
  : list (jsstring * value) :=
  let h := req_headers req in
  [ (lit "type", VStr (stripHtml (get b (lit "type"))));
    (lit "name", VStr (stripHtml (get b (lit "name"))));
    (lit "email", VStr (stripHtml (get b (lit "email"))));
    (lit "phone", or_null (stripHtml (get b (lit "phone"))));
    (lit "location", or_null (stripHtml (get b (lit "location"))));
    (lit "company", or_null (stripHtml (get b (lit "company"))));
    (lit "website", or_null (stripHtml (get b (lit "website"))));
    (lit "portfolio_url", or_null (stripHtml (get b (lit "portfolio_url"))));
    (lit "linkedin_url", or_null (stripHtml (get b (lit "linkedin_url"))));
    (lit "bio", VStr (stripHtml (get b (lit "bio"))));
    (lit "referral_source", or_null (stripHtml (get b (lit "referral_source"))));
    (lit "ip_address",
      or_else (or_else (header (x_forwarded_for h)) (header (x_real_ip h))) VNull);
    (lit "user_agent", or_else (header (user_agent h)) VNull) ].

(** Line 59: [typeof req.body === 'string' ? JSON.parse(req.body) : req.body];
    [None] when [JSON.parse] throws. *)
Definition parsed_body (req : request) : option value :=
  match body req with
  | VStr text => JSON_parse text
  | b => Some b
  end.

Section Handler.

(** [new URL(s)] for a string [s]: does the constructor return (rather
    than throw)? The URL parser belongs to the platform. *)
Variable URL_parses : jsstring -> bool.

(** The persistence API, as [fetch] reaches it. *)
Variable fetch : fetch_request -> fetch_outcome.

(** Lines 33-36. [new URL(url)] first converts [url] to a string; the
    [catch] turns a throw of that conversion, like one of the parser, into
    [false]. *)
Definition isValidUrl (url : value) : bool :=
  if negb (ToBoolean url) then true
  else
    match ToString url with
    | Some s => URL_parses s
    | None => false
    end.

(** Lines 38-46: the CORS headers. *)
Definition request_origin (req : request) : jsstring :=
  match or_else (header (origin (req_headers req))) (VStr []) with
  | VStr s => s
  | _ => []
  end.

Definition origin_allowed (o : jsstring) : bool :=
  let isLocal := startsWith o (lit "http://localhost") in
  includes ALLOWED_ORIGINS o || isLocal.

Definition cors_headers (req : request) : list (jsstring * jsstring) :=
  let o := request_origin req in
  (if origin_allowed o then [(lit "Access-Control-Allow-Origin", o)] else [])
  ++ [ (lit "Access-Control-Allow-Methods", lit "POST, OPTIONS");
       (lit "Access-Control-Allow-Headers", lit "Content-Type") ].

(** Lines 67-93: the [errors] array after all the checks. *)
Definition validation_errors (body : value) : list jsstring :=
  let errors := [] in
  let type := stripHtml (get body (lit "type")) in
  let name := stripHtml (get body (lit "name")) in
  let email := stripHtml (get body (lit "email")) in
  let bio := stripHtml (get body (lit "bio")) in
  let errors :=
    push_if (negb (includes VALID_TYPES type))
            "Invalid application type" errors in
  let errors :=
    push_if (empty name || (List.length name <? 2))
            "Name is required (min 2 characters)" errors in
  let errors :=
    push_if (empty email || negb (isValidEmail email))
            "Valid email is required" errors in
  let errors :=
    push_if (empty bio || (List.length bio <? 50))
            "Bio must be at least 50 characters" errors in
  let errors :=
    if jsstring_eqb type (lit "talent") then
      let discipline := stripHtml (get body (lit "primary_discipline")) in
      push_if (empty discipline || negb (includes TALENT_DISCIPLINES discipline))
              "Primary discipline is required" errors
    else errors in
  let errors :=
    if jsstring_eqb type (lit "vendor") then
      let vendorType := stripHtml (get body (lit "vendor_type")) in
      push_if (empty vendorType || negb (includes VENDOR_TYPES vendorType))
              "Vendor type is required" errors
    else errors in
  let errors :=
    push_if (ToBoolean (get body (lit "website"))
             && negb (isValidUrl (get body (lit "website"))))
            "Invalid website URL" errors in
  let errors :=
    push_if (ToBoolean (get body (lit "portfolio_url"))
             && negb (isValidUrl (get body (lit "portfolio_url"))))
            "Invalid portfolio URL" errors in
  let errors :=
    push_if (ToBoolean (get body (lit "linkedin_url"))
             && negb (isValidUrl (get body (lit "linkedin_url"))))
            "Invalid LinkedIn URL" errors in
  errors.

(** Lines 99-128: the [row], completed for its type; [None] when
    [Number(body.years_experience)] of line 120 throws. *)
Definition build_row (req : request) (body : value) : option value :=
  let type := stripHtml (get body (lit "type")) in
  let row := common_properties req body in
  let completed :=
    if jsstring_eqb type (lit "talent") then
      let row :=
        set_prop (lit "primary_discipline")
                 (VStr (stripHtml (get body (lit "primary_discipline")))) row in
      let row :=
        set_prop (lit "disciplines")
                 (strip_array (get body (lit "disciplines"))) row in
      match ToNumber (get body (lit "years_experience")) with
      | None => None
      | Some years =>
          Some (set_prop (lit "years_experience")
                         (or_else (VNum years) VNull) row)
      end
    else Some row in
  match completed with
  | None => None
  | Some row =>
      let row :=
        if jsstring_eqb type (lit "vendor") then
          let row :=
            set_prop (lit "vendor_type")
                     (VStr (stripHtml (get body (lit "vendor_type")))) row in
          set_prop (lit "services_offered")
                   (strip_array (get body (lit "services_offered"))) row
        else row in
      Some (VObj row)
  end.

(** Lines 130-139: the request to the persistence API. *)
Definition insert_request (supabaseUrl supabaseKey : jsstring) (row : value)
  : fetch_request :=
  {| fetch_url := supabaseUrl ++ lit "/rest/v1/applications";
     fetch_method := lit "POST";
     fetch_headers :=
       [ (lit "Content-Type", lit "application/json");
         (lit "apikey", supabaseKey);
         (lit "Authorization", lit "Bearer " ++ supabaseKey);
         (lit "Prefer", lit "return=minimal") ];
     fetch_row := row |}.

(** [res.status(code).json(payload)], or [res.status(code).end()] when
    there is no payload, after the headers of lines 42-46 were set. *)
Definition respond (req : request) (code : N) (payload : option value)
  : response :=
  {| status := code; headers := cors_headers req; json := payload |}.

(** Lines 58-147, the [try] block: the events so far and the response
    returned, or [None] when an exception left the block: [JSON.parse] at
    line 59, [Number] at line 120, [fetch] at line 130 or
    [response.text()] at line 142. *)
Definition try_block (req : request) (supabaseUrl supabaseKey : jsstring)
  : list event * option response :=
  match parsed_body req with
  | None => ([], None)
  | Some body =>
      if negb (ToBoolean body) then
        ([], Some (respond req 400 (Some (obj_error "Missing request body"))))
      else if ToBoolean (get body (lit "website_url")) then
        ([], Some (respond req 200 (Some obj_ok)))
      else
        let errors := validation_errors body in
        if (0 <? List.length errors) then
          ([], Some (respond req 400
                 (Some (VObj [ (lit "error", VStr (lit "Validation failed"));
                               (lit "details", VArr (map VStr errors)) ]))))
        else
          match build_row req body with
          | None => ([], None)
          | Some row =>
              let call := insert_request supabaseUrl supabaseKey row in
              match fetch call with
              | Rejected => ([Fetched call], None)
              | Responded ok _ text =>
                  if negb ok then
                    match text with
                    | None => ([Fetched call], None)
                    | Some _ =>
                        ([Fetched call; ConsoleError (lit "Supabase insert error:")],
                         Some (respond req 500
                                 (Some (obj_error "Failed to save application"))))
                    end
                  else ([Fetched call], Some (respond req 200 (Some obj_ok)))
              end
          end
  end.

Definition handler (env : environment) (req : request) : outcome :=
  if jsstring_eqb (method req) (lit "OPTIONS") then
    {| reply := respond req 200 None; trace := [] |}
  else if negb (jsstring_eqb (method req) (lit "POST")) then
    {| reply := respond req 405 (Some (obj_error "Method not allowed")); trace := [] |}
  else
    let supabaseUrl := env_var (SUPABASE_URL env) in
    let supabaseKey := env_var (SUPABASE_SERVICE_ROLE_KEY env) in
    if negb (ToBoolean supabaseUrl) || negb (ToBoolean supabaseKey) then
      {| reply := respond req 500 (Some (obj_error "Server configuration error"));
         trace := [] |}
    else
      match try_block req (env_text (SUPABASE_URL env))
                      (env_text (SUPABASE_SERVICE_ROLE_KEY env)) with
      | (events, Some r) => {| reply := r; trace := events |}
      | (events, None) =>
          {| reply := respond req 500 (Some (obj_error "Internal server error"));
             trace := events ++ [ConsoleError (lit "Application handler error:")] |}
      end.

End Handler.

(** ** The URL parser of the platform

    [URL_constructs s]: does [new URL(s)] return? This is the basic URL
    parser of the URL Standard run without a base URL, followed only as far
    as it can fail: the scheme, the authority with its host and port, and
    the host of a [file:] URL. Paths, queries and fragments never fail.

    One part of the host parser is outside this development: the Unicode
    processing of a domain (UTS #46 mapping and Punycode). A domain that
    needs it, because it has a code unit above U+007F after
    percent-decoding or a label that starts with [xn--], is let through. *)

Module URL.

Definition c0_or_space (c : code_unit) : bool := (c <=? 32)%N.
Definition tab_or_newline (c : code_unit) : bool :=
  ((c =? 9) || (c =? 10) || (c =? 13))%N.
Definition ascii_alpha (c : code_unit) : bool :=
  ((65 <=? c) && (c <=? 90) || (97 <=? c) && (c <=? 122))%N.
Definition ascii_digit (c : code_unit) : bool := ((48 <=? c) && (c <=? 57))%N.
Definition ascii_lower (c : code_unit) : code_unit :=
  if ((65 <=? c) && (c <=? 90))%N then (c + 32)%N else c.

Fixpoint drop_while (p : code_unit -> bool) (s : jsstring) : jsstring :=
  match s with
  | c :: r => if p c then drop_while p r else s
  | [] => []
  end.

Fixpoint take_while (p : code_unit -> bool) (s : jsstring) : jsstring :=
  match s with
  | c :: r => if p c then c :: take_while p r else []
  | [] => []
  end.

(** The input without leading and trailing C0 controls and spaces, and
    without any tab or newline. *)
Definition clean (s : jsstring) : jsstring :=
  filter (fun c => negb (tab_or_newline c))
         (rev (drop_while c0_or_space (rev (drop_while c0_or_space s)))).

(** Scheme start state and scheme state: a letter, then letters, digits,
    [+], [-] and [.] up to a colon. The result is the lower-cased scheme
    and what follows the colon. *)
Definition scheme_char (c : code_unit) : bool :=
  ascii_alpha c || ascii_digit c || is_char "+" c || is_char "-" c || is_char "." c.

Fixpoint read_scheme (s : jsstring) : option (jsstring * jsstring) :=
  match s with
  | [] => None
  | c :: r =>
      if is_char ":" c then Some ([], r)
      else if scheme_char c then
        match read_scheme r with
        | Some (scheme, rest) => Some (ascii_lower c :: scheme, rest)
        | None => None
        end
      else None
  end.

Definition split_scheme (s : jsstring) : option (jsstring * jsstring) :=
  match s with
  | c :: _ => if ascii_alpha c then read_scheme s else None
  | [] => None
  end.

Definition special_schemes : list jsstring :=
  [ lit "ftp"; lit "file"; lit "http"; lit "https"; lit "ws"; lit "wss" ].

(** Strict splitting on a separator. *)
Fixpoint split_on (sep : ascii) (s : jsstring) : list jsstring :=
  match s with
  | [] => [[]]
  | c :: r =>
      if is_char sep c then [] :: split_on sep r
      else match split_on sep r with
           | part :: parts => (c :: part) :: parts
           | [] => [[c]]
           end
  end.

Definition forbidden_host (c : code_unit) : bool :=
  ((c =? 0) || (c =? 9) || (c =? 10) || (c =? 13) || (c =? 32))%N
  || is_char "#" c || is_char "/" c || is_char ":" c || is_char "<" c
  || is_char ">" c || is_char "?" c || is_char "@" c || is_char "[" c
  || is_char "\" c || is_char "]" c || is_char "^" c || is_char "|" c.

Definition forbidden_domain (c : code_unit) : bool :=
  forbidden_host c || (c <=? 31)%N || is_char "%" c || (c =? 127)%N.

(** The IPv4 number parser: decimal, [0x] hexadecimal or [0] octal. *)
Definition ipv4_number (s : jsstring) : option N :=
  match s with
  | [] => None
  | _ =>
      let '(radix, digits) :=
        match s with
        | z :: x :: r =>
            if is_char "0" z && (is_char "x" x || is_char "X" x) then (16%N, r)
            else if is_char "0" z then (8%N, x :: r)
            else (10%N, s)
        | _ => (10%N, s)
        end in
      match digits with
      | [] => Some 0%N
      | _ => match span_digits radix 0 0 digits with
             | (v, _, []) => Some v
             | _ => None
             end
      end
  end.

Definition drop_empty_last (parts : list jsstring) : list jsstring :=
  match rev parts with
  | [] :: (_ :: _) as front => rev front
  | _ => parts
  end.

Definition ends_in_number (s : jsstring) : bool :=
  match rev (split_on "." s) with
  | [[]] => false
  | [] :: last :: _ | last :: _ =>
      match last with
      | [] => false
      | _ => forallb ascii_digit last
             || match ipv4_number last with Some _ => true | None => false end
      end
  | [] => false
  end.

Fixpoint ipv4_numbers (parts : list jsstring) : option (list N) :=
  match parts with
  | [] => Some []
  | p :: rest =>
      match ipv4_number p, ipv4_numbers rest with
      | Some n, Some ns => Some (n :: ns)
      | _, _ => None
      end
  end.

Definition ipv4_ok (s : jsstring) : bool :=
  let parts := drop_empty_last (split_on "." s) in
  if (4 <? List.length parts)%nat then false
  else match ipv4_numbers parts with
       | None => false
       | Some numbers =>
           match rev numbers with
           | last :: front =>
               forallb (fun n => (n <=? 255)%N) front
               && (last <? 256 ^ (5 - N.of_nat (List.length numbers)))%N
           | [] => false
           end
       end.

(** The dotted quad that may end an IPv6 address: four decimal numbers
    up to 255 without leading zeros. *)
Definition ipv6_quad_ok (s : jsstring) : bool :=
  let part_ok (p : jsstring) :=
    match p with
    | [] => false
    | z :: _ :: _ =>
        negb (is_char "0" z) && forallb ascii_digit p
        && match span_digits 10 0 0 p with (v, _, _) => (v <=? 255)%N end
    | _ => forallb ascii_digit p
    end in
  let parts := split_on "." s in
  Nat.eqb (List.length parts) 4 && forallb part_ok parts.

Fixpoint hex_run (n : nat) (s : jsstring) : nat * jsstring :=
  match n, s with
  | S n', c :: r =>
      match digit_val 16 c with
      | Some _ => let '(k, rest) := hex_run n' r in (S k, rest)
      | None => (O, s)
      end
  | _, _ => (O, s)
  end.

(** The pieces of an IPv6 address; [compress] records that [::] was
    seen. *)
Fixpoint ipv6_pieces (fuel : nat) (s : jsstring) (pieceIndex : nat)
         (compress : bool) : bool :=
  match fuel with
  | O => false
  | S fuel' =>
      match s with
      | [] => compress || Nat.eqb pieceIndex 8
      | c :: r =>
          if Nat.eqb pieceIndex 8 then false
          else if is_char ":" c then
            if compress then false
            else ipv6_pieces fuel' r (S pieceIndex) true
          else
            let '(len, rest) := hex_run 4 s in
            match rest with
            | [] => ipv6_pieces fuel' [] (S pieceIndex) compress
            | d :: r' =>
                if is_char "." d then
                  negb (Nat.eqb len 0) && (pieceIndex <=? 6)%nat
                  && ipv6_quad_ok s
                  && (compress || Nat.eqb (pieceIndex + 2) 8)
                else if is_char ":" d then
                  match r' with
                  | [] => false
                  | _ => ipv6_pieces fuel' r' (S pieceIndex) compress
                  end
                else false
            end
      end
  end.

Definition ipv6_ok (s : jsstring) : bool :=
  match s with
  | c :: r =>
      if is_char ":" c then
        match r with
        | c' :: r' =>
            if is_char ":" c' then ipv6_pieces (S (List.length r')) r' 1 true
            else false
        | [] => false
        end
      else ipv6_pieces (S (List.length s)) s 0 false
  | [] => false
  end.

Fixpoint percent_decode (s : jsstring) : jsstring :=
  match s with
  | [] => []
  | c :: r =>
      match r with
      | h1 :: h2 :: r' =>
          match is_char "%" c, digit_val 16 h1, digit_val 16 h2 with
          | true, Some a, Some b => (a * 16 + b)%N :: percent_decode r'
          | _, _, _ => c :: percent_decode r
          end
      | _ => c :: percent_decode r
      end
  end.

Definition needs_unicode (domain : jsstring) : bool :=
  existsb (fun c => (127 <? c)%N) domain
  || existsb (fun label => startsWith (map ascii_lower label) (lit "xn--"))
             (split_on "." domain).

(** The host parser; [isOpaque] for the URLs that are not special. *)
Definition host_ok (isOpaque : bool) (input : jsstring) : bool :=
  match input with
  | c :: r =>
      if is_char "[" c then
        match rev r with
        | e :: middle => is_char "]" e && ipv6_ok (rev middle)
        | [] => false
        end
      else if isOpaque then negb (existsb forbidden_host input)
      else
        let domain := percent_decode input in
        if needs_unicode domain then true
        else
          let asciiDomain := map ascii_lower domain in
          negb (empty asciiDomain)
          && negb (existsb forbidden_domain asciiDomain)
          && (if ends_in_number asciiDomain then ipv4_ok asciiDomain else true)
  | [] => isOpaque
  end.

(** Port state: digits up to the end of the authority, at most 65535. *)
Definition port_ok (s : jsstring) : bool :=
  match span_digits 10 0 0 s with
  | (v, _, []) => (v <=? 65535)%N
  | _ => false
  end.

(** Host state: the host runs to the first colon outside brackets. *)
Fixpoint split_host (s : jsstring) (insideBrackets : bool)
  : jsstring * option jsstring :=
  match s with
  | [] => ([], None)
  | c :: r =>
      if is_char ":" c && negb insideBrackets then ([], Some r)
      else
        let inside := if is_char "[" c then true
                      else if is_char "]" c then false
                      else insideBrackets in
        let '(host, port) := split_host r inside in (c :: host, port)
  end.

(** What follows the last [@] of [s], if there is one. *)
Fixpoint after_last_at (s : jsstring) : option jsstring :=
  match s with
  | [] => None
  | c :: r =>
      match after_last_at r with
      | Some tail => Some tail
      | None => if is_char "@" c then Some r else None
      end
  end.

(** Authority state, host state and port state. *)
Definition authority_ok (special : bool) (s : jsstring) : bool :=
  let stop (c : code_unit) :=
    is_char "/" c || is_char "?" c || is_char "#" c
    || (special && is_char "\" c) in
  let authority := take_while (fun c => negb (stop c)) s in
  let hostport :=
    match after_last_at authority with
    | Some tail => if empty tail then None else Some tail
    | None => Some authority
    end in
  match hostport with
  | None => false
  | Some hp =>
      match split_host hp false with
      | (host, Some port) =>
          negb (empty host) && host_ok (negb special) host && port_ok port
      | (host, None) =>
          negb (special && empty host) && host_ok (negb special) host
      end
  end.

Definition slash (c : code_unit) : bool := is_char "/" c || is_char "\" c.

Definition windows_drive_letter (s : jsstring) : bool :=
  match s with
  | [a; b] => ascii_alpha a && (is_char ":" b || is_char "|" b)
  | _ => false
  end.

(** File state, file slash state and file host state. *)
Definition file_ok (s : jsstring) : bool :=
  match s with
  | c1 :: c2 :: r =>
      if slash c1 && slash c2 then
        let stop (c : code_unit) :=
          slash c || is_char "?" c || is_char "#" c in
        let buffer := take_while (fun c => negb (stop c)) r in
        if windows_drive_letter buffer || empty buffer then true
        else host_ok false buffer
      else true
  | _ => true
  end.

Definition parses (s : jsstring) : bool :=
  match split_scheme (clean s) with
  | None => false
  | Some (scheme, rest) =>
      if jsstring_eqb scheme (lit "file") then file_ok rest
      else if includes special_schemes scheme then
        authority_ok true (drop_while slash rest)
      else
        match rest with
        | c1 :: c2 :: r =>
            if is_char "/" c1 && is_char "/" c2 then authority_ok false r
            else true
        | _ => true
        end
  end.

End URL.

Definition URL_constructs : jsstring -> bool := URL.parses.

(** ** The vocabulary of the properties *)

(** A string that neither starts nor ends with whitespace. *)
Definition no_outer_space (s : jsstring) : Prop :=
  (forall c r, s = c :: r -> is_space c = false)
  /\ (forall r c, s = r ++ [c] -> is_space c = false).

(** No part of the string is a match of the tag pattern. *)
Definition no_tag (s : jsstring) : Prop :=
  forall a b z, s = a ++ b ++ z -> ~ matches tag_pattern b.

(** The same, decided: some [<] has a [>] after it. *)
Fixpoint has_tag (s : jsstring) : bool :=
  match s with
  | [] => false
  | c :: r => is_char "<" c && has_gt r || has_tag r
  end.

(** What the sanitizer establishes. *)
Definition sanitized (s : jsstring) : Prop := no_tag s /\ no_outer_space s.

(** Both configuration values are present (and not empty). *)
Definition is_configured (env : environment) : bool :=
  ToBoolean (env_var (SUPABASE_URL env))
  && ToBoolean (env_var (SUPABASE_SERVICE_ROLE_KEY env)).

(** The value of a response header, if it was set. *)
Fixpoint header_value (name : jsstring) (hs : list (jsstring * jsstring))
  : option jsstring :=
  match hs with
  | [] => None
  | (n, v) :: rest => if jsstring_eqb name n then Some v else header_value name rest
  end.

(** The request with another [Origin] header (or none). *)
Definition with_origin (o : option jsstring) (req : request) : request :=
  {| method := method req;
     req_headers := {| origin := o;
                       x_forwarded_for := x_forwarded_for (req_headers req);
                       x_real_ip := x_real_ip (req_headers req);
                       user_agent := user_agent (req_headers req) |};
     body := body req |}.

(** Scenario 2 of the specification. *)
Definition scenario2_body : value :=
  VObj [ (lit "type", VStr (lit "vendor"));
         (lit "name", VStr (lit "A"));
         (lit "email", VStr (lit "bad-email"));
         (lit "bio", VStr (lit "short")) ].

(** ** Requests and surroundings used in the examples *)

(** [typeof v === 'string']. *)
Definition is_string (v : value) : bool :=
  match v with
  | VStr _ => true
  | _ => false
  end.

(** JSON text written with apostrophes for the double quotes. *)
Definition json_text (s : string) : jsstring :=
  map (fun c => if (c =? 39)%N then 34%N else c) (lit s).

Definition example_env : environment :=
  {| SUPABASE_URL := Some (lit "https://db.example");
     SUPABASE_SERVICE_ROLE_KEY := Some (lit "service-key") |}.

Definition no_env : environment :=
  {| SUPABASE_URL := None; SUPABASE_SERVICE_ROLE_KEY := None |}.

(** A persistence API that stores every row. *)
Definition accepting (_ : fetch_request) : fetch_outcome :=
  Responded true 201 (Some []).

Definition no_headers : request_headers :=
  {| origin := None; x_forwarded_for := None; x_real_ip := None;
     user_agent := None |}.

(** The headers of a request that names its origin. *)
Definition sent_from (o : string) : request_headers :=
  {| origin := Some (lit o); x_forwarded_for := None; x_real_ip := None;
     user_agent := None |}.

Definition tagged_agent : request_headers :=
  {| origin := None; x_forwarded_for := None; x_real_ip := None;
     user_agent := Some (lit "<b>bot</b> ") |}.

Definition post (h : request_headers) (b : value) : request :=
  {| method := lit "POST"; req_headers := h; body := b |}.

(** A talent application that passes validation, with more properties. *)
Definition talent_body (more : list (jsstring * value)) : value :=
  VObj ([ (lit "type", VStr (lit "talent"));
          (lit "name", VStr (lit "Jo"));
          (lit "email", VStr (lit "jo@x.com"));
          (lit "bio",
            VStr (lit "Portrait and event photographer with ten years of studio work."));
          (lit "primary_discipline", VStr (lit "Photography")) ] ++ more).

Definition spam_request : request :=
  post no_headers
       (VStr (json_text "{'website_url': 'http://spam.example', 'type': 'nonsense'}")).

Definition scenario2_text : jsstring :=
  json_text "{'type':'vendor', 'name':'A', 'email':'bad-email', 'bio':'short'}".

(** Keeping some elements of a list, in their order. *)
Inductive subsequence {A : Type} : list A -> list A -> Prop :=
| sub_nil : subsequence [] []
| sub_keep x l1 l2 : subsequence l1 l2 -> subsequence (x :: l1) (x :: l2)
| sub_drop x l1 l2 : subsequence l1 l2 -> subsequence l1 (x :: l2).

(** The nine messages of lines 73-93, in the order of the source. *)
Definition all_messages : list jsstring :=
  [ lit "Invalid application type";
    lit "Name is required (min 2 characters)";
    lit "Valid email is required";
    lit "Bio must be at least 50 characters";
    lit "Primary discipline is required";
    lit "Vendor type is required";
    lit "Invalid website URL";
    lit "Invalid portfolio URL";
    lit "Invalid LinkedIn URL" ].

(** The optional text fields of lines 103-110. *)
Definition optional_fields : list jsstring :=
  [ lit "phone"; lit "location"; lit "company"; lit "website";
    lit "portfolio_url"; lit "linkedin_url"; lit "referral_source" ].

(** How many calls to the persistence API a trace holds. *)
Fixpoint count_fetches (events : list event) : nat :=
  match events with
  | [] => O
  | Fetched _ :: rest => S (count_fetches rest)
  | ConsoleError _ :: rest => count_fetches rest
  end.

(** What leaves no row to forward: the application is a talent's, and
    [Number(body.years_experience)] throws. *)
Definition years_experience_throws (b : value) : Prop :=
  stripHtml (get b (lit "type")) = lit "talent"
  /\ ToNumber (get b (lit "years_experience")) = None.

(** A persistence API that refuses every row, and one that cannot be
    reached. *)
Definition refusing (_ : fetch_request) : fetch_outcome :=
  Responded false 409 (Some (lit "duplicate key value")).

Definition unreachable (_ : fetch_request) : fetch_outcome := Rejected.

(** A vendor application that passes validation, with more properties. *)
Definition vendor_body (more : list (jsstring * value)) : value :=
  VObj ([ (lit "type", VStr (lit "vendor"));
          (lit "name", VStr (lit "Acme Print"));
          (lit "email", VStr (lit "sales@acme.example"));
          (lit "bio",
            VStr (lit "Large format print and signage for events, since 1999."));
          (lit "vendor_type", VStr (lit "Print & Signage")) ] ++ more).

Definition proxied : request_headers :=
  {| origin := Some (lit "https://thirty3labs.com");
     x_forwarded_for := Some (lit "203.0.113.7");
     x_real_ip := Some (lit "10.0.0.1");
     user_agent := Some (lit "Mozilla/5.0") |}.

(** * Properties *)

(** ** Strings *)

Lemma jsstring_eqb_eq (a b : jsstring) : jsstring_eqb a b = true <-> a = b.
Proof.
  revert b; induction a as [|x a IH]; intros [|y b]; simpl; split;
    try congruence; try reflexivity.
  - intros H. apply andb_true_iff in H as [Hx Hab].
    apply N.eqb_eq in Hx. apply IH in Hab. congruence.
  - intros H. injection H as -> ->.
    rewrite N.eqb_refl. simpl. apply IH. reflexivity.
Qed.

Lemma jsstring_eqb_refl (a : jsstring) : jsstring_eqb a a = true.
Proof. apply jsstring_eqb_eq. reflexivity. Qed.

Lemma empty_nil (s : jsstring) : empty s = true <-> s = [].
Proof. unfold empty. apply jsstring_eqb_eq. Qed.

Lemma empty_false (s : jsstring) : empty s = false <-> s <> [].
Proof.
  unfold empty. destruct s; simpl; split; intro H;
    try congruence; try reflexivity.
Qed.

Lemma includes_In (l : list jsstring) (s : jsstring) :
  includes l s = true <-> In s l.
Proof.
  unfold includes. rewrite existsb_exists. split.
  - intros [x [Hin Heq]]. apply jsstring_eqb_eq in Heq. congruence.
  - intros Hin. exists s. split; [assumption | apply jsstring_eqb_refl].
Qed.

Lemma startsWith_app (s prefix : jsstring) :
  startsWith s prefix = true <-> exists rest, s = prefix ++ rest.
Proof.
  revert s; induction prefix as [|p prefix IH]; intros s; simpl.
  - split; [intros _; exists s; reflexivity | reflexivity].
  - destruct s as [|c s].
    + split; [discriminate | intros [rest H]; discriminate].
    + rewrite andb_true_iff, N.eqb_eq, IH. split.
      * intros [-> [rest ->]]. exists rest. reflexivity.
      * intros [rest H]. injection H as -> ->. split; [reflexivity | eauto].
Qed.

(** ** [trim] *)

Lemma trimStart_suffix (s : jsstring) : exists a, s = a ++ trimStart s.
Proof.
  induction s as [|c s [a IH]]; simpl.
  - exists []. reflexivity.
  - destruct (is_space c).
    + exists (c :: a). simpl. congruence.
    + exists []. reflexivity.
Qed.

Lemma trimStart_head (s : jsstring) c r :
  trimStart s = c :: r -> is_space c = false.
Proof.
  induction s as [|x s IH]; simpl; [discriminate|].
  destruct (is_space x) eqn:E; [exact IH|]. congruence.
Qed.

Lemma trimStart_id (s : jsstring) :
  (forall c r, s = c :: r -> is_space c = false) -> trimStart s = s.
Proof.
  destruct s as [|c r]; simpl; [reflexivity|].
  intros H. rewrite (H c r eq_refl). reflexivity.
Qed.

Lemma trimEnd_prefix (s : jsstring) : exists z, s = trimEnd s ++ z.
Proof.
  unfold trimEnd. destruct (trimStart_suffix (rev s)) as [a H].
  exists (rev a). rewrite <- rev_app_distr, <- H, rev_involutive. reflexivity.
Qed.

Lemma trimEnd_last (s : jsstring) r c :
  trimEnd s = r ++ [c] -> is_space c = false.
Proof.
  unfold trimEnd. intros H.
  apply (f_equal (@rev code_unit)) in H.
  rewrite rev_involutive, rev_app_distr in H. simpl in H.
  eapply trimStart_head; eassumption.
Qed.

Lemma trimEnd_id (s : jsstring) :
  (forall r c, s = r ++ [c] -> is_space c = false) -> trimEnd s = s.
Proof.
  intros H. unfold trimEnd. rewrite trimStart_id.
  - apply rev_involutive.
  - intros c r E. apply (H (rev r)).
    rewrite <- (rev_involutive s), E. reflexivity.
Qed.

Lemma trim_substring (s : jsstring) : exists a z, s = a ++ trim s ++ z.
Proof.
  unfold trim. destruct (trimStart_suffix s) as [a Ha].
  destruct (trimEnd_prefix (trimStart s)) as [z Hz].
  exists a, z. rewrite <- Hz. exact Ha.
Qed.

Lemma trim_no_outer_space (s : jsstring) : no_outer_space (trim s).
Proof.
  unfold trim. split.
  - intros c r H.
    destruct (trimEnd_prefix (trimStart s)) as [z Hz].
    rewrite H in Hz. simpl in Hz.
    eapply trimStart_head; eassumption.
  - intros r c H. eapply trimEnd_last; eassumption.
Qed.

Lemma trim_id (s : jsstring) : no_outer_space s -> trim s = s.
Proof.
  intros [Hh Hl]. unfold trim.
  rewrite (trimStart_id s Hh). apply trimEnd_id, Hl.
Qed.

(** ** Regular expressions: [accepts] decides [matches] *)

Ltac inv H := inversion H; subst; clear H.

Lemma nullable_matches (r : regex) : nullable r = true <-> matches r [].
Proof.
  induction r as [| |p|r1 IH1 r2 IH2|r1 IH1 r2 IH2|r IH]; simpl.
  - split; [discriminate | intros H; inv H].
  - split; [intros _; constructor | reflexivity].
  - split; [discriminate | intros H; inv H].
  - rewrite andb_true_iff, IH1, IH2. split.
    + intros [H1 H2]. exact (m_seq _ _ [] [] H1 H2).
    + intros H. inv H.
      match goal with E : _ ++ _ = [] |- _ =>
        apply app_eq_nil in E as [-> ->] end.
      split; assumption.
  - rewrite orb_true_iff, IH1, IH2. split.
    + intros [H|H]; [apply m_alt_l | apply m_alt_r]; assumption.
    + intros H. inv H; [left | right]; assumption.
  - split; [intros _; constructor | reflexivity].
Qed.

Lemma matches_Void (s : jsstring) : ~ matches Void s.
Proof. intros H. inv H. Qed.

Lemma matches_seq (r1 r2 : regex) (s : jsstring) :
  matches (seq r1 r2) s <-> matches (Seq r1 r2) s.
Proof.
  split.
  - destruct r1, r2; simpl; intros H; try assumption;
      exfalso; exact (matches_Void _ H).
  - intros H. inv H.
    destruct r1, r2; simpl;
      try (exfalso; eapply matches_Void; eassumption);
      constructor; assumption.
Qed.

Lemma matches_alt (r1 r2 : regex) (s : jsstring) :
  matches (alt r1 r2) s <-> matches r1 s \/ matches r2 s.
Proof.
  split.
  - destruct r1, r2; simpl; intros H;
      try (left; assumption); try (right; assumption);
      inv H; auto.
  - intros [H|H]; destruct r1, r2; simpl;
      try (exfalso; eapply matches_Void; eassumption);
      try assumption;
      solve [apply m_alt_l; assumption | apply m_alt_r; assumption].
Qed.

Lemma matches_Seq_inv (r1 r2 : regex) (s : jsstring) :
  matches (Seq r1 r2) s ->
  exists s1 s2, s = s1 ++ s2 /\ matches r1 s1 /\ matches r2 s2.
Proof. intros H. inv H. eauto. Qed.

(** A non-empty match of a repetition starts with a non-empty match of
    its body. *)
Lemma matches_Star_cons (r : regex) (c : code_unit) (s : jsstring) :
  matches (Star r) (c :: s) ->
  exists s1 s2, s = s1 ++ s2 /\ matches r (c :: s1) /\ matches (Star r) s2.
Proof.
  intros H. remember (Star r) as R eqn:ER. remember (c :: s) as cs eqn:Es.
  revert s Es.
  induction H as [| | | | | |r' s1 s2 H1 _ H2 IH2]; intros t Et;
    try discriminate.
  injection ER as ->.
  destruct s1 as [|x s1]; simpl in Et.
  - apply IH2; [reflexivity | assumption].
  - injection Et as -> <-. exists s1, s2. auto.
Qed.

Lemma deriv_matches (c : code_unit) (r : regex) :
  forall s, matches (deriv c r) s <-> matches r (c :: s).
Proof.
  induction r as [| |p|r1 IH1 r2 IH2|r1 IH1 r2 IH2|r IH]; intros s; simpl.
  - split; intros H; inv H.
  - split; intros H; inv H.
  - destruct (p c) eqn:E; split; intros H.
    + inv H. constructor. assumption.
    + inv H. constructor.
    + inv H.
    + inv H. congruence.
  - assert (Hseq : matches (seq (deriv c r1) r2) s <->
                   exists s1 s2, s = s1 ++ s2 /\ matches r1 (c :: s1)
                                 /\ matches r2 s2).
    { rewrite matches_seq. split.
      - intros H. apply matches_Seq_inv in H as (s1 & s2 & -> & H1 & H2).
        apply IH1 in H1. eauto.
      - intros (s1 & s2 & -> & H1 & H2). constructor; [apply IH1|]; assumption. }
    assert (Hsplit : matches (Seq r1 r2) (c :: s) <->
                     (exists s1 s2, s = s1 ++ s2 /\ matches r1 (c :: s1)
                                    /\ matches r2 s2)
                     \/ (matches r1 [] /\ matches r2 (c :: s))).
    { split.
      - intros H. apply matches_Seq_inv in H as (s1 & s2 & E & H1 & H2).
        destruct s1 as [|x s1]; simpl in E.
        + subst s2. right. auto.
        + injection E as <- ->. left. eauto.
      - intros [(s1 & s2 & -> & H1 & H2) | [H1 H2]].
        + exact (m_seq _ _ (c :: s1) s2 H1 H2).
        + exact (m_seq _ _ [] (c :: s) H1 H2). }
    rewrite Hsplit. destruct (nullable r1) eqn:N.
    + rewrite matches_alt, Hseq, IH2.
      apply nullable_matches in N. tauto.
    + rewrite Hseq. split; [auto|].
      intros [H | [H _]]; [assumption|].
      apply nullable_matches in H. congruence.
  - rewrite matches_alt, IH1, IH2. split.
    + intros [H|H]; [apply m_alt_l | apply m_alt_r]; assumption.
    + intros H. inv H; auto.
  - rewrite matches_seq. split.
    + intros H. apply matches_Seq_inv in H as (s1 & s2 & -> & H1 & H2).
      apply IH in H1. exact (m_star_app _ (c :: s1) s2 H1 H2).
    + intros H. apply matches_Star_cons in H as (s1 & s2 & -> & H1 & H2).
      constructor; [apply IH|]; assumption.
Qed.

Theorem accepts_matches (r : regex) (s : jsstring) :
  accepts r s = true <-> matches r s.
Proof.
  revert r; induction s as [|c s IH]; intros r; simpl.
  - apply nullable_matches.
  - rewrite IH. apply deriv_matches.
Qed.

Lemma is_char_eq (a : ascii) (c : code_unit) : is_char a c = true <-> c = chr a.
Proof. unfold is_char. apply N.eqb_eq. Qed.

Lemma star_class_forallb (p : code_unit -> bool) (s : jsstring) :
  matches (Star (Class p)) s <-> forallb p s = true.
Proof.
  split.
  - revert s. induction s as [|c s IH]; intros H; [reflexivity|].
    apply matches_Star_cons in H as (s1 & s2 & -> & H1 & H2).
    inv H1. simpl. apply andb_true_iff. auto.
  - induction s as [|c s IH]; simpl; intros H; [constructor|].
    apply andb_true_iff in H as [Hc Hs].
    apply (m_star_app _ [c] s); [constructor; assumption | auto].
Qed.

(** A match of the tag pattern: [<], no [>], then [>]. *)
Lemma tag_pattern_matches (b : jsstring) :
  matches tag_pattern b <->
  exists m, b = chr "<" :: m ++ [chr ">"] /\ forallb (not_char ">") m = true.
Proof.
  unfold tag_pattern. split.
  - intros H.
    apply matches_Seq_inv in H as (s1 & s2 & -> & H1 & H2).
    apply matches_Seq_inv in H2 as (m & s3 & -> & Hm & H3).
    inv H1. inv H3.
    repeat match goal with E : is_char _ _ = true |- _ =>
      apply is_char_eq in E; subst end.
    exists m. split; [reflexivity | apply star_class_forallb; assumption].
  - intros (m & -> & Hm).
    apply (m_seq _ _ [chr "<"] (m ++ [chr ">"])).
    + constructor. reflexivity.
    + constructor; [apply star_class_forallb; assumption|].
      constructor. reflexivity.
Qed.

(** ** [stripHtml] *)

Lemma not_char_is_char (a : ascii) (c : code_unit) :
  not_char a c = negb (is_char a c).
Proof. reflexivity. Qed.

Lemma has_gt_app (a b : jsstring) : has_gt (a ++ b) = has_gt a || has_gt b.
Proof.
  induction a as [|c a IH]; simpl; [reflexivity|].
  rewrite IH. apply orb_assoc.
Qed.

(** The first [>] of a string that has one. *)
Lemma has_gt_split (s : jsstring) :
  has_gt s = true ->
  exists m z, s = m ++ chr ">" :: z /\ forallb (not_char ">") m = true.
Proof.
  induction s as [|c s IH]; simpl; [discriminate|].
  destruct (is_char ">" c) eqn:E; simpl.
  - intros _. apply is_char_eq in E as ->. exists [], s. auto.
  - intros H. destruct (IH H) as (m & z & -> & Hm).
    exists (c :: m), z. simpl. rewrite not_char_is_char, E. auto.
Qed.

Lemma has_gt_no_gt (m z : jsstring) : has_gt (m ++ chr ">" :: z) = true.
Proof. rewrite has_gt_app. simpl. apply orb_true_r. Qed.

Lemma has_tag_app (a b : jsstring) :
  has_tag (a ++ b) = false -> has_tag a = false /\ has_tag b = false.
Proof.
  induction a as [|c a IH]; simpl; [auto|].
  rewrite has_gt_app. intros H.
  apply orb_false_iff in H as [H1 H2].
  destruct (IH H2) as [Ha Hb]. rewrite Ha, Hb, orb_false_r.
  split; [|reflexivity].
  destruct (is_char "<" c); simpl in *; [|reflexivity].
  apply orb_false_iff in H1. tauto.
Qed.

Lemma has_tag_no_gt (s : jsstring) : has_gt s = false -> has_tag s = false.
Proof.
  induction s as [|c s IH]; simpl; [reflexivity|].
  intros H. apply orb_false_iff in H as [_ H].
  rewrite H, (IH H), andb_false_r. reflexivity.
Qed.

Theorem has_tag_spec (s : jsstring) :
  has_tag s = true <->
  exists a b z, s = a ++ b ++ z /\ matches tag_pattern b.
Proof.
  split.
  - induction s as [|c s IH]; simpl; [discriminate|].
    intros H. apply orb_true_iff in H as [H|H].
    + apply andb_true_iff in H as [Hc Hg].
      apply is_char_eq in Hc as ->.
      destruct (has_gt_split s Hg) as (m & z & -> & Hm).
      exists [], (chr "<" :: m ++ [chr ">"]), z. split.
      * simpl. rewrite <- app_assoc. reflexivity.
      * apply tag_pattern_matches. eauto.
    + destruct (IH H) as (a & b & z & -> & Hb).
      exists (c :: a), b, z. auto.
  - intros (a & b & z & -> & Hb).
    apply tag_pattern_matches in Hb as (m & -> & _).
    destruct (has_tag (a ++ (chr "<" :: m ++ [chr ">"]) ++ z)) eqn:E;
      [reflexivity|].
    apply has_tag_app in E as [_ E]. apply has_tag_app in E as [E _].
    simpl in E. rewrite has_gt_no_gt in E. discriminate.
Qed.

Lemma no_tag_has_tag (s : jsstring) : has_tag s = false <-> no_tag s.
Proof.
  unfold no_tag. split.
  - intros H a b z E Hb.
    assert (has_tag s = true) by (apply has_tag_spec; eauto). congruence.
  - intros H. destruct (has_tag s) eqn:E; [|reflexivity].
    apply has_tag_spec in E as (a & b & z & E & Hb).
    exfalso. exact (H a b z E Hb).
Qed.

(** [replace_tags] follows the pattern: a match at the front is dropped,
    and where no match starts the code unit is kept. A position starts at
    most one match. *)
Lemma inside_tag_skip (m z : jsstring) :
  forallb (not_char ">") m = true ->
  inside_tag (m ++ chr ">" :: z) = replace_tags z.
Proof.
  induction m as [|c m IH]; simpl; [reflexivity|].
  rewrite not_char_is_char. intros H.
  apply andb_true_iff in H as [Hc Hm].
  apply negb_true_iff in Hc. rewrite Hc. auto.
Qed.

Theorem replace_tags_match (t s : jsstring) :
  matches tag_pattern t -> replace_tags (t ++ s) = replace_tags s.
Proof.
  intros H. apply tag_pattern_matches in H as (m & -> & Hm).
  simpl. rewrite <- app_assoc. simpl.
  rewrite has_gt_no_gt. simpl. apply inside_tag_skip, Hm.
Qed.

Theorem replace_tags_keep (c : code_unit) (s : jsstring) :
  (forall t z, c :: s = t ++ z -> ~ matches tag_pattern t) ->
  replace_tags (c :: s) = c :: replace_tags s.
Proof.
  intros H. simpl.
  destruct (is_char "<" c && has_gt s) eqn:E; [|reflexivity].
  apply andb_true_iff in E as [Hc Hg]. apply is_char_eq in Hc as ->.
  destruct (has_gt_split s Hg) as (m & z & -> & Hm).
  exfalso. apply (H (chr "<" :: m ++ [chr ">"]) z).
  - simpl. rewrite <- app_assoc. reflexivity.
  - apply tag_pattern_matches. eauto.
Qed.

Theorem tag_match_unique (t1 z1 t2 z2 : jsstring) :
  matches tag_pattern t1 -> matches tag_pattern t2 ->
  t1 ++ z1 = t2 ++ z2 -> t1 = t2.
Proof.
  intros H1 H2 E.
  apply tag_pattern_matches in H1 as (m1 & -> & Hm1).
  apply tag_pattern_matches in H2 as (m2 & -> & Hm2).
  simpl in E. injection E as E. f_equal.
  rewrite <- !app_assoc in E. simpl in E.
  revert m2 Hm2 E. induction m1 as [|c m1 IH]; intros [|d m2] Hm2 E;
    simpl in *.
  - reflexivity.
  - injection E as <- _. discriminate.
  - injection E as -> _. discriminate.
  - injection E as <- E.
    apply andb_true_iff in Hm1 as [_ Hm1], Hm2 as [_ Hm2].
    f_equal. exact (IH Hm1 m2 Hm2 E).
Qed.

Lemma replace_tags_no_gt (s : jsstring) : has_gt s = false -> replace_tags s = s.
Proof.
  induction s as [|c s IH]; simpl; [reflexivity|].
  intros H. apply orb_false_iff in H as [_ H].
  rewrite H, andb_false_r, (IH H). reflexivity.
Qed.

Lemma replace_tags_has_tag (s : jsstring) :
  has_tag (replace_tags s) = false /\ has_tag (inside_tag s) = false.
Proof.
  induction s as [|c s [IHr IHi]]; simpl; [auto|]. split.
  - destruct (is_char "<" c) eqn:Ec; simpl.
    + destruct (has_gt s) eqn:Eg; [assumption|].
      simpl. rewrite Ec, IHr, (replace_tags_no_gt s Eg), Eg. reflexivity.
    + rewrite Ec, IHr. reflexivity.
  - destruct (is_char ">" c); assumption.
Qed.

Lemma replace_tags_id (s : jsstring) : has_tag s = false -> replace_tags s = s.
Proof.
  induction s as [|c s IH]; simpl; [reflexivity|].
  intros H. apply orb_false_iff in H as [H1 H2].
  rewrite H1, (IH H2). reflexivity.
Qed.

Lemma stripHtml_has_tag (v : value) : has_tag (stripHtml v) = false.
Proof.
  destruct v as [| | | |s| |]; try reflexivity. simpl.
  destruct (trim_substring (replace_tags s)) as (a & z & E).
  pose proof (proj1 (replace_tags_has_tag s)) as H.
  rewrite E in H. apply has_tag_app in H as [_ H].
  apply has_tag_app in H as [H _]. exact H.
Qed.

Lemma stripHtml_no_outer_space (v : value) : no_outer_space (stripHtml v).
Proof.
  destruct v as [| | | |s| |]; try (split; intros; [discriminate|]);
    try (exfalso; eapply app_cons_not_nil; eassumption).
  apply trim_no_outer_space.
Qed.

Lemma stripHtml_sanitized (v : value) : sanitized (stripHtml v).
Proof.
  split; [apply no_tag_has_tag, stripHtml_has_tag
         | apply stripHtml_no_outer_space].
Qed.

Lemma stripHtml_fixed (s : jsstring) : sanitized s -> stripHtml (VStr s) = s.
Proof.
  intros [Ht Hs]. simpl.
  rewrite replace_tags_id by (apply no_tag_has_tag; assumption).
  apply trim_id, Hs.
Qed.

(** ** [JSON.parse] has enough fuel *)

Lemma skip_ws_length (s : jsstring) :
  (List.length (skip_ws s) <= List.length s)%nat.
Proof.
  induction s as [|c s IH]; simpl; [lia|].
  destruct (json_ws c); simpl; lia.
Qed.

Lemma span_digits_length (base acc : N) (n : nat) (s : jsstring) v n' rest :
  span_digits base acc n s = (v, n', rest) ->
  (List.length rest + n' = List.length s + n)%nat.
Proof.
  revert acc n. induction s as [|c s IH]; intros acc n; simpl.
  - intros H. injection H as <- <- <-. reflexivity.
  - destruct (digit_val base c).
    + intros H. apply IH in H. lia.
    + intros H. injection H as <- <- <-. reflexivity.
Qed.

Lemma parse_string_chars_bound (n : nat) :
  forall s str rest,
    (List.length s <= n)%nat ->
    parse_string_chars s = Some (str, rest) ->
    (List.length rest < List.length s)%nat.
Proof.
  induction n as [|n IH]; intros s str rest Hn.
  { destruct s; [discriminate | simpl in Hn; lia]. }
  destruct s as [|c r]; simpl; [discriminate|].
  assert (step : forall r' (u : code_unit),
             (List.length r' <= n)%nat ->
             (List.length r' <= List.length r)%nat ->
             match parse_string_chars r' with
             | Some (body, rest0) => Some (u :: body, rest0)
             | None => None
             end = Some (str, rest) ->
             (List.length rest < S (List.length r))%nat).
  { intros r' u Hle Hr H.
    destruct (parse_string_chars r') as [[body rest0]|] eqn:E; [|discriminate].
    injection H as <- <-. apply IH in E; [lia | assumption]. }
  simpl in Hn.
  destruct (c =? 34)%N.
  { intros H. injection H as <- <-. lia. }
  destruct (c <? 32)%N; [discriminate|].
  destruct (c =? 92)%N.
  2:{ apply step; lia. }
  destruct r as [|e r1]; [discriminate|]. simpl in Hn.
  repeat match goal with
         | |- (if ?b then _ else _) = _ -> _ =>
             destruct b; [apply step; simpl; lia|]
         end.
  destruct (e =? 117)%N; [|discriminate].
  destruct r1 as [|h1 [|h2 [|h3 [|h4 r2]]]]; try discriminate.
  destruct (hex4 h1 h2 h3 h4); [|discriminate].
  simpl in Hn. apply step; simpl; lia.
Qed.

Lemma parse_string_chars_length (s str rest : jsstring) :
  parse_string_chars s = Some (str, rest) ->
  (List.length rest < List.length s)%nat.
Proof. apply (parse_string_chars_bound (List.length s)). lia. Qed.

Lemma read_sign_length (s : jsstring) neg r :
  read_sign s = (neg, r) -> (List.length r <= List.length s)%nat.
Proof.
  destruct s as [|c s]; simpl.
  - intros H. injection H as <- <-. simpl. lia.
  - destruct (c =? 45)%N; [|destruct (c =? 43)%N];
      intros H; injection H as <- <-; simpl; lia.
Qed.

Lemma parse_number_length (s : jsstring) x rest :
  parse_number s = Some (x, rest) ->
  (List.length rest < List.length s)%nat.
Proof.
  unfold parse_number.
  set (signed := match s with
                 | c :: r => if (c =? 45)%N then (true, r) else (false, s)
                 | [] => (false, s)
                 end).
  assert (Hs : (List.length (snd signed) <= List.length s)%nat).
  { subst signed. destruct s as [|c r]; simpl; [lia|].
    destruct (c =? 45)%N; simpl; lia. }
  destruct signed as [neg r0]. simpl in Hs.
  set (int_part := match r0 with
                   | c :: r =>
                       if (c =? 48)%N then Some (0%N, r)
                       else match span_digits 10 0 0 r0 with
                            | (_, O, _) => None
                            | (ip, _, r1) => Some (ip, r1)
                            end
                   | [] => None
                   end).
  assert (Hi : forall ip r1, int_part = Some (ip, r1) ->
                             (List.length r1 < List.length r0)%nat).
  { subst int_part. intros ip r1. destruct r0 as [|c r]; [discriminate|].
    destruct (c =? 48)%N.
    - intros H. injection H as <- <-. simpl. lia.
    - destruct (span_digits 10 0 0 (c :: r)) as [[v n] r'] eqn:E.
      apply span_digits_length in E.
      destruct n; [discriminate|].
      intros H. injection H as <- <-. lia. }
  destruct int_part as [[ip r1]|]; [|discriminate].
  specialize (Hi ip r1 eq_refl).
  set (fraction := match r1 with
                   | c :: r =>
                       if (c =? 46)%N then
                         match span_digits 10 ip 0 r with
                         | (_, O, _) => None
                         | (m, nf, r2) => Some (m, nf, r2)
                         end
                       else Some (ip, O, r1)
                   | [] => Some (ip, O, r1)
                   end).
  assert (Hf : forall m nf r2, fraction = Some (m, nf, r2) ->
                               (List.length r2 <= List.length r1)%nat).
  { subst fraction. intros m nf r2. destruct r1 as [|c r].
    - intros H. injection H as <- <- <-. lia.
    - destruct (c =? 46)%N.
      + destruct (span_digits 10 ip 0 r) as [[v n] r'] eqn:E.
        apply span_digits_length in E.
        destruct n; [discriminate|].
        intros H. injection H as <- <- <-. simpl. lia.
      + intros H. injection H as <- <- <-. lia. }
  destruct fraction as [[[m nf] r2]|]; [|discriminate].
  specialize (Hf m nf r2 eq_refl).
  set (exponent := match r2 with
                   | c :: r =>
                       if ((c =? 101)%N || (c =? 69)%N)%bool then
                         let '(eneg, r3) := read_sign r in
                         match span_digits 10 0 0 r3 with
                         | (_, O, _) => None
                         | (e, _, r4) =>
                             Some (if eneg then (- Z.of_N e)%Z else Z.of_N e, r4)
                         end
                       else Some (0%Z, r2)
                   | [] => Some (0%Z, r2)
                   end).
  assert (He : forall e r4, exponent = Some (e, r4) ->
                            (List.length r4 <= List.length r2)%nat).
  { subst exponent. intros e r4. destruct r2 as [|c r].
    - intros H. injection H as <- <-. lia.
    - destruct ((c =? 101)%N || (c =? 69)%N)%bool.
      + destruct (read_sign r) as [eneg r3] eqn:Er.
        apply read_sign_length in Er.
        destruct (span_digits 10 0 0 r3) as [[v n] r'] eqn:E.
        apply span_digits_length in E.
        destruct n; [discriminate|].
        intros H. injection H as <- <-. simpl. lia.
      + intros H. injection H as <- <-. lia. }
  destruct exponent as [[e r4]|]; [|discriminate].
  specialize (He e r4 eq_refl).
  intros H. injection H as <- <-. lia.
Qed.

Lemma literal_length (word : jsstring) (v : value) (s : jsstring) v' rest :
  word <> [] -> s <> [] ->
  literal word v s = Parsed v' rest ->
  (List.length rest < List.length s)%nat.
Proof.
  unfold literal. intros Hw Hs.
  destruct (startsWith s word); [|discriminate].
  intros H. injection H as <- <-.
  rewrite length_skipn.
  destruct word; [congruence|]. destruct s; [congruence|]. simpl. lia.
Qed.

Ltac case_if :=
  match goal with
  | |- context [if ?b then _ else _] => destruct b
  end.

(** A parsed value consumes at least one code unit. *)
Lemma parse_shrinks (fuel : nat) :
  (forall s v rest,
      parse_value fuel s = Parsed v rest ->
      (List.length rest < List.length s)%nat)
  /\ (forall acc s v rest,
         parse_elements fuel acc s = Parsed v rest ->
         (List.length rest < List.length s)%nat)
  /\ (forall acc s v rest,
         parse_members fuel acc s = Parsed v rest ->
         (List.length rest < List.length s)%nat).
Proof.
  induction fuel as [|fuel (IHv & IHe & IHm)].
  { repeat split; intros; discriminate. }
  repeat split.
  - intros s v rest. simpl.
    pose proof (skip_ws_length s) as Hw.
    destruct (skip_ws s) as [|c r]; [discriminate|]. simpl in Hw.
    case_if.
    { pose proof (skip_ws_length r) as Hw2.
      destruct (skip_ws r) as [|c' r']; [discriminate|]. simpl in Hw2.
      case_if.
      - intros H. injection H as <- <-. lia.
      - intros H. apply IHm in H. lia. }
    case_if.
    { pose proof (skip_ws_length r) as Hw2.
      destruct (skip_ws r) as [|c' r']; [discriminate|]. simpl in Hw2.
      case_if.
      - intros H. injection H as <- <-. lia.
      - intros H. apply IHe in H. lia. }
    case_if.
    { destruct (parse_string_chars r) as [[str rest0]|] eqn:E; [|discriminate].
      apply parse_string_chars_length in E.
      intros H. injection H as <- <-. lia. }
    do 3 (case_if;
          [intros H; apply literal_length in H;
           [simpl in H; lia | discriminate | discriminate]|]).
    destruct (parse_number (c :: r)) as [[x rest0]|] eqn:E; [|discriminate].
    apply parse_number_length in E. simpl in E.
    intros H. injection H as <- <-. lia.
  - intros acc s v rest. simpl.
    destruct (parse_value fuel s) as [v0 rest0| |] eqn:E; try discriminate.
    apply IHv in E.
    pose proof (skip_ws_length rest0) as Hw.
    destruct (skip_ws rest0) as [|c r]; [discriminate|]. simpl in Hw.
    case_if; [intros H; apply IHe in H; lia|].
    case_if; [|discriminate].
    intros H. injection H as <- <-. lia.
  - intros acc s v rest. simpl.
    pose proof (skip_ws_length s) as Hw.
    destruct (skip_ws s) as [|q r]; [discriminate|]. simpl in Hw.
    case_if; [|discriminate].
    destruct (parse_string_chars r) as [[key rest0]|] eqn:Ek; [|discriminate].
    apply parse_string_chars_length in Ek.
    pose proof (skip_ws_length rest0) as Hw0.
    destruct (skip_ws rest0) as [|colon r1]; [discriminate|]. simpl in Hw0.
    case_if; [|discriminate].
    destruct (parse_value fuel r1) as [v0 rest1| |] eqn:E; try discriminate.
    apply IHv in E.
    pose proof (skip_ws_length rest1) as Hw1.
    destruct (skip_ws rest1) as [|c r2]; [discriminate|]. simpl in Hw1.
    case_if; [intros H; apply IHm in H; lia|].
    case_if; [|discriminate].
    intros H. injection H as <- <-. lia.
Qed.

Lemma literal_fuel (word : jsstring) (v : value) (s : jsstring) :
  literal word v s <> OutOfFuel.
Proof. unfold literal. destruct (startsWith s word); discriminate. Qed.

(** With fuel for twice the length of the text, the parser never stops for
    lack of fuel. *)
Lemma parse_fuel (fuel : nat) :
  (forall s, (2 * List.length s + 1 <= fuel)%nat ->
             parse_value fuel s <> OutOfFuel)
  /\ (forall acc s, (2 * List.length s + 2 <= fuel)%nat ->
                    parse_elements fuel acc s <> OutOfFuel)
  /\ (forall acc s, (2 * List.length s + 2 <= fuel)%nat ->
                    parse_members fuel acc s <> OutOfFuel).
Proof.
  induction fuel as [|fuel (IHv & IHe & IHm)].
  { repeat split; intros; lia. }
  destruct (parse_shrinks fuel) as (Sv & Se & Sm).
  repeat split.
  - intros s Hf. simpl.
    pose proof (skip_ws_length s) as Hw.
    destruct (skip_ws s) as [|c r]; [discriminate|]. simpl in Hw.
    case_if.
    { pose proof (skip_ws_length r) as Hw2.
      destruct (skip_ws r) as [|c' r']; [discriminate|].
      case_if; [discriminate | apply IHm; lia]. }
    case_if.
    { pose proof (skip_ws_length r) as Hw2.
      destruct (skip_ws r) as [|c' r']; [discriminate|].
      case_if; [discriminate | apply IHe; lia]. }
    case_if.
    { destruct (parse_string_chars r) as [[str rest0]|]; discriminate. }
    do 3 (case_if; [apply literal_fuel|]).
    destruct (parse_number (c :: r)) as [[x rest0]|]; discriminate.
  - intros acc s Hf. simpl.
    destruct (parse_value fuel s) as [v0 rest0| |] eqn:E.
    + apply Sv in E.
      pose proof (skip_ws_length rest0) as Hw.
      destruct (skip_ws rest0) as [|c r]; [discriminate|]. simpl in Hw.
      case_if; [apply IHe; lia|].
      case_if; discriminate.
    + discriminate.
    + exfalso. exact (IHv s ltac:(lia) E).
  - intros acc s Hf. simpl.
    pose proof (skip_ws_length s) as Hw.
    destruct (skip_ws s) as [|q r]; [discriminate|]. simpl in Hw.
    case_if; [|discriminate].
    destruct (parse_string_chars r) as [[key rest0]|] eqn:Ek; [|discriminate].
    apply parse_string_chars_length in Ek.
    pose proof (skip_ws_length rest0) as Hw0.
    destruct (skip_ws rest0) as [|colon r1]; [discriminate|]. simpl in Hw0.
    case_if; [|discriminate].
    destruct (parse_value fuel r1) as [v0 rest1| |] eqn:E.
    + apply Sv in E.
      pose proof (skip_ws_length rest1) as Hw1.
      destruct (skip_ws rest1) as [|c r2]; [discriminate|]. simpl in Hw1.
      case_if; [apply IHm; lia|].
      case_if; discriminate.
    + discriminate.
    + exfalso. exact (IHv r1 ltac:(lia) E).
Qed.

(** So [JSON_parse] answers [None] only for a text that is not JSON. *)
Theorem parse_value_fuel (text : jsstring) :
  parse_value (2 * List.length text + 1) text <> OutOfFuel.
Proof. apply (proj1 (parse_fuel _)). lia. Qed.

(** ** The handler *)

Lemma POST_is_not_OPTIONS : jsstring_eqb (lit "POST") (lit "OPTIONS") = false.
Proof. reflexivity. Qed.

Lemma POST_is_POST : jsstring_eqb (lit "POST") (lit "POST") = true.
Proof. reflexivity. Qed.

Lemma stripHtml_nonempty (v : value) : stripHtml v <> [] -> ToBoolean v = true.
Proof.
  destruct v as [| | | |s| |]; simpl; try congruence.
  destruct s; [|reflexivity]. intros H. exfalso. apply H. reflexivity.
Qed.

Lemma get_defined (b : value) (k : jsstring) :
  get b k <> VUndefined -> ToBoolean b = true.
Proof. destruct b; simpl; congruence. Qed.

(** Case analysis on the innermost scrutinee of the goal. *)
Ltac destruct_inner :=
  match goal with
  | |- context [match ?x with _ => _ end] =>
      lazymatch x with
      | context [match _ with _ => _ end] => fail
      | _ => destruct x
      end
  end.

Section HandlerProperties.

Variable URL_parses : jsstring -> bool.
Variable fetch : fetch_request -> fetch_outcome.

(** A POST with the configuration present runs the [try] block. *)
Lemma handler_POST (env : environment) (req : request) :
  method req = lit "POST" -> is_configured env = true ->
  exists supabaseUrl supabaseKey,
    SUPABASE_URL env = Some supabaseUrl
    /\ SUPABASE_SERVICE_ROLE_KEY env = Some supabaseKey
    /\ handler URL_parses fetch env req =
       match try_block URL_parses fetch req supabaseUrl supabaseKey with
       | (events, Some r) => {| reply := r; trace := events |}
       | (events, None) =>
           {| reply := respond req 500 (Some (obj_error "Internal server error"));
              trace := events ++ [ConsoleError (lit "Application handler error:")] |}
       end.
Proof.
  intros Hm Hc. unfold is_configured in Hc.
  apply andb_true_iff in Hc as [Hu Hk].
  destruct (SUPABASE_URL env) as [u|] eqn:Eu; [|discriminate].
  destruct (SUPABASE_SERVICE_ROLE_KEY env) as [k|] eqn:Ek; [|discriminate].
  exists u, k. repeat split.
  unfold handler.
  rewrite Hm, POST_is_not_OPTIONS, POST_is_POST, Eu, Ek.
  simpl in Hu, Hk. simpl. rewrite Hu, Hk. reflexivity.
Qed.

(** C1. A POST whose parsed body carries a [website_url] that is not
    empty after sanitization, with the configuration present, is answered
    200 [{ok: true}] at once: nothing is validated (the answer does not
    depend on any other field) and nothing is sent to the persistence
    API. *)
Theorem honeypot_accepts (env : environment) (req : request) (b : value) :
  method req = lit "POST" ->
  is_configured env = true ->
  parsed_body req = Some b ->
  stripHtml (get b (lit "website_url")) <> [] ->
  handler URL_parses fetch env req =
  {| reply := respond req 200 (Some obj_ok); trace := [] |}.
Proof.
  intros Hm Hc Hb Hw.
  destruct (handler_POST env req Hm Hc) as (u & k & _ & _ & ->).
  unfold try_block. rewrite Hb.
  pose proof (stripHtml_nonempty _ Hw) as Ht.
  assert (Hbody : ToBoolean b = true).
  { apply (get_defined b (lit "website_url")).
    intros E. rewrite E in Ht. discriminate. }
  rewrite Hbody, Ht. reflexivity.
Qed.

(** C2, amended. For a POST with the configuration present: a request
    body that is not a string and is falsy ([undefined], [null], [false],
    0) is answered 400 [{error: "Missing request body"}], and so is a body
    string whose JSON text parses to a falsy value; a body string that is
    not JSON text makes [JSON.parse] throw and is answered 500
    [{error: "Internal server error"}], with the error logged. The empty
    string is such a string: although falsy, it is answered 500. Nothing
    is sent to the persistence API either way. *)
Theorem missing_body_rejected (env : environment) (req : request) :
  method req = lit "POST" ->
  is_configured env = true ->
  let missing :=
    {| reply := respond req 400 (Some (obj_error "Missing request body"));
       trace := [] |} in
  let failed :=
    {| reply := respond req 500 (Some (obj_error "Internal server error"));
       trace := [ConsoleError (lit "Application handler error:")] |} in
  (is_string (body req) = false -> ToBoolean (body req) = false ->
   handler URL_parses fetch env req = missing)
  /\ (forall text b, body req = VStr text -> JSON_parse text = Some b ->
                     ToBoolean b = false ->
                     handler URL_parses fetch env req = missing)
  /\ (forall text, body req = VStr text -> JSON_parse text = None ->
                   handler URL_parses fetch env req = failed)
  /\ (body req = VStr [] -> handler URL_parses fetch env req = failed).
Proof.
  intros Hm Hc. cbv zeta.
  destruct (handler_POST env req Hm Hc) as (u & k & _ & _ & ->).
  unfold try_block, parsed_body. repeat split.
  - intros Hs Hf. destruct (body req); try discriminate Hs;
      try (rewrite Hf; reflexivity); reflexivity.
  - intros text b Hb Hp Hf. rewrite Hb, Hp, Hf. reflexivity.
  - intros text Hb Hp. rewrite Hb, Hp. reflexivity.
  - intros Hb. rewrite Hb. reflexivity.
Qed.

(** C7, amended. If either configuration value is absent, every POST
    request is answered 500 [{error: "Server configuration error"}]
    whatever its body is (the body is not read, let alone parsed) and
    nothing else happens. The method is looked at first: OPTIONS is
    answered 200 and any method other than POST 405. *)
Theorem missing_configuration (env : environment) (req : request) :
  is_configured env = false ->
  handler URL_parses fetch env req =
  if jsstring_eqb (method req) (lit "OPTIONS") then
    {| reply := respond req 200 None; trace := [] |}
  else if jsstring_eqb (method req) (lit "POST") then
    {| reply := respond req 500 (Some (obj_error "Server configuration error"));
       trace := [] |}
  else
    {| reply := respond req 405 (Some (obj_error "Method not allowed"));
       trace := [] |}.
Proof.
  intros Hc. unfold handler.
  destruct (jsstring_eqb (method req) (lit "OPTIONS")); [reflexivity|].
  destruct (jsstring_eqb (method req) (lit "POST")); [|reflexivity].
  unfold is_configured in Hc. simpl negb.
  rewrite <- negb_andb, Hc. reflexivity.
Qed.

(** Every answer carries the CORS headers of lines 42-46. *)
Lemma handler_headers (env : environment) (req : request) :
  headers (reply (handler URL_parses fetch env req)) = cors_headers req.
Proof.
  unfold handler, try_block.
  repeat destruct_inner; reflexivity.
Qed.

Lemma origin_allowed_spec (o : jsstring) :
  origin_allowed o = true <->
  In o ALLOWED_ORIGINS \/ exists rest, o = lit "http://localhost" ++ rest.
Proof.
  unfold origin_allowed.
  rewrite orb_true_iff, includes_In, startsWith_app. reflexivity.
Qed.

Lemma build_row_with_origin (o : option jsstring) (req : request) (b : value) :
  build_row (with_origin o req) b = build_row req b.
Proof. reflexivity. Qed.

(** C8. Let the origin of a request be the value of its [Origin] header,
    or the empty string when it has none. The response has an
    [Access-Control-Allow-Origin] header exactly when that origin is one of
    the two production domains or starts with [http://localhost]; its
    value is then the origin itself, and never the wildcard. The origin
    changes nothing else: the status, the body and the call to the
    persistence API are the same for any other origin, or none. *)
Theorem cors_allow_origin (env : environment) (req : request) :
  let o := match origin (req_headers req) with
           | Some sent => sent
           | None => []
           end in
  let allowed :=
    o = lit "https://thirty3labs.com" \/ o = lit "https://www.thirty3labs.com"
    \/ exists rest, o = lit "http://localhost" ++ rest in
  let out := handler URL_parses fetch env req in
  let allow_origin :=
    header_value (lit "Access-Control-Allow-Origin") (headers (reply out)) in
  (allowed <-> allow_origin = Some o)
  /\ (~ allowed <-> allow_origin = None)
  /\ allow_origin <> Some (lit "*")
  /\ forall o' : option jsstring,
      let out' := handler URL_parses fetch env (with_origin o' req) in
      status (reply out') = status (reply out)
      /\ json (reply out') = json (reply out)
      /\ trace out' = trace out.
Proof.
  cbv zeta.
  assert (Ho : request_origin req = match origin (req_headers req) with
                                    | Some sent => sent
                                    | None => []
                                    end).
  { unfold request_origin, or_else.
    destruct (origin (req_headers req)) as [[|c sent]|]; reflexivity. }
  assert (Ha : origin_allowed (request_origin req) = true <->
               request_origin req = lit "https://thirty3labs.com"
               \/ request_origin req = lit "https://www.thirty3labs.com"
               \/ exists rest, request_origin req = lit "http://localhost" ++ rest).
  { rewrite origin_allowed_spec. unfold ALLOWED_ORIGINS. simpl In.
    split; intros H; decompose [or] H; auto; contradiction. }
  assert (Hh : header_value (lit "Access-Control-Allow-Origin")
                 (headers (reply (handler URL_parses fetch env req)))
               = if origin_allowed (request_origin req)
                 then Some (request_origin req) else None).
  { rewrite handler_headers. unfold cors_headers.
    destruct (origin_allowed (request_origin req)); reflexivity. }
  rewrite Ho in Ha, Hh. rewrite Hh.
  split; [|split; [|split]].
  - destruct (origin_allowed _).
    + split; [reflexivity|]. intros _. apply Ha. reflexivity.
    + split; [|discriminate]. intros H. apply Ha in H. discriminate H.
  - destruct (origin_allowed _).
    + split; [|discriminate]. intros H. exfalso. apply H, Ha. reflexivity.
    + split; [reflexivity|]. intros _ H. apply Ha in H. discriminate H.
  - destruct (origin_allowed _) eqn:E; [|discriminate].
    intros H. injection H as H. rewrite H in E. discriminate.
  - intros o'. unfold handler, try_block.
    change (method (with_origin o' req)) with (method req).
    change (parsed_body (with_origin o' req)) with (parsed_body req).
    repeat split;
      repeat (rewrite ?build_row_with_origin; destruct_inner); reflexivity.
Qed.

(** *** Validation *)

Lemma In_push_if (m : jsstring) (c : bool) (msg : string) (errors : list jsstring) :
  In m (push_if c msg errors) <-> In m errors \/ (c = true /\ m = lit msg).
Proof.
  unfold push_if. destruct c.
  - rewrite in_app_iff. simpl. intuition congruence.
  - intuition congruence.
Qed.

Lemma push_if_nil (c : bool) (msg : string) (errors : list jsstring) :
  push_if c msg errors = [] -> c = false /\ errors = [].
Proof.
  unfold push_if. destruct c; [|auto].
  intros H. apply app_eq_nil in H as [_ H]. discriminate.
Qed.

Lemma url_check (x : value) :
  ToBoolean x && negb (isValidUrl URL_parses x) = true <->
  ToBoolean x = true
  /\ (forall s, ToString x = Some s -> URL_parses s = false).
Proof.
  unfold isValidUrl. destruct (ToBoolean x); simpl.
  - rewrite negb_true_iff. destruct (ToString x) as [s|].
    + split.
      * intros H. split; [reflexivity|]. intros s' E. congruence.
      * intros [_ H]. apply H. reflexivity.
    + split; [|reflexivity]. intros _. split; [reflexivity | discriminate].
  - split; [discriminate | intros [H _]; discriminate].
Qed.

(** X25. What lines 91-93 do with the three optional URL fields. They are
    checked as they arrive, before any sanitization: a raw value that is
    absent or otherwise falsy (the empty string, [null], [false], 0)
    appends no message, and a truthy raw value appends the message of its
    field exactly when [new URL] throws for it: the raw value cannot be
    converted to a string, or its string does not parse as an absolute
    URL. *)
Theorem url_fields_validated (b : value) :
  let invalid (k : jsstring) :=
    ToBoolean (get b k) = true
    /\ (forall s, ToString (get b k) = Some s -> URL_parses s = false) in
  let errors := validation_errors URL_parses b in
  (In (lit "Invalid website URL") errors <-> invalid (lit "website"))
  /\ (In (lit "Invalid portfolio URL") errors <-> invalid (lit "portfolio_url"))
  /\ (In (lit "Invalid LinkedIn URL") errors <-> invalid (lit "linkedin_url")).
Proof.
  cbv zeta. unfold validation_errors. cbv zeta.
  destruct (jsstring_eqb (stripHtml (get b (lit "type"))) (lit "talent")),
           (jsstring_eqb (stripHtml (get b (lit "type"))) (lit "vendor"));
    rewrite !In_push_if, !url_check; simpl In;
    (split; [|split]);
    (split;
     [ intros Hin;
       repeat match goal with
              | H : _ \/ _ |- _ => destruct H
              | H : _ /\ _ |- _ => destruct H
              | H : False |- _ => contradiction
              | H : lit _ = lit _ |- _ => vm_compute in H; discriminate H
              end;
       split; assumption
     | intros [H1 H2]; auto 12 ]).
Qed.

(** A POST that passes the honeypot gate with validation errors is
    answered 400 with all of them. *)
Lemma handler_validation_failed (env : environment) (req : request) (b : value) :
  method req = lit "POST" ->
  is_configured env = true ->
  parsed_body req = Some b ->
  ToBoolean b = true ->
  ToBoolean (get b (lit "website_url")) = false ->
  validation_errors URL_parses b <> [] ->
  handler URL_parses fetch env req =
  {| reply := respond req 400
                (Some (VObj [ (lit "error", VStr (lit "Validation failed"));
                              (lit "details",
                                VArr (map VStr (validation_errors URL_parses b))) ]));
     trace := [] |}.
Proof.
  intros Hm Hc Hb Ht Hw He.
  destruct (handler_POST env req Hm Hc) as (u & k & _ & _ & ->).
  unfold try_block. rewrite Hb, Ht, Hw. simpl negb. cbv iota.
  destruct (validation_errors URL_parses b); [congruence | reflexivity].
Qed.

(** C6. Validation collects every violation. The body
    [{type: "vendor", name: "A", email: "bad-email", bio: "short"}]
    (no honeypot, configuration present) is answered 400
    [{error: "Validation failed"}] with the four messages for the name,
    the email, the bio and the vendor type in [details]. *)
Theorem validation_collects_all (env : environment) (req : request) :
  method req = lit "POST" ->
  is_configured env = true ->
  parsed_body req = Some scenario2_body ->
  handler URL_parses fetch env req =
  {| reply :=
       respond req 400
         (Some (VObj [ (lit "error", VStr (lit "Validation failed"));
                       (lit "details",
                         VArr [ VStr (lit "Name is required (min 2 characters)");
                                VStr (lit "Valid email is required");
                                VStr (lit "Bio must be at least 50 characters");
                                VStr (lit "Vendor type is required") ]) ]));
     trace := [] |}.
Proof.
  intros Hm Hc Hb.
  assert (He : validation_errors URL_parses scenario2_body =
               [ lit "Name is required (min 2 characters)";
                 lit "Valid email is required";
                 lit "Bio must be at least 50 characters";
                 lit "Vendor type is required" ]) by (vm_compute; reflexivity).
  rewrite (handler_validation_failed env req scenario2_body Hm Hc Hb
             eq_refl eq_refl).
  - rewrite He. reflexivity.
  - rewrite He. discriminate.
Qed.

(** *** The row that is forwarded *)

(** A call to the persistence API is made only for a parsed body without
    validation errors whose row could be built, and it carries that
    row. *)
Lemma handler_fetched (env : environment) (req : request) (r : fetch_request) :
  In (Fetched r) (trace (handler URL_parses fetch env req)) ->
  exists b supabaseUrl supabaseKey row,
    parsed_body req = Some b
    /\ validation_errors URL_parses b = []
    /\ build_row req b = Some row
    /\ r = insert_request supabaseUrl supabaseKey row.
Proof.
  unfold handler.
  destruct (jsstring_eqb (method req) (lit "OPTIONS")); [intros []|].
  destruct (negb (jsstring_eqb (method req) (lit "POST"))); [intros []|].
  destruct (_ || _); [intros []|].
  unfold try_block.
  destruct (parsed_body req) as [b|] eqn:Eb; [|intros [H|[]]; discriminate].
  destruct (negb (ToBoolean b)); [intros []|].
  destruct (ToBoolean (get b (lit "website_url"))); [intros []|].
  destruct (validation_errors URL_parses b) as [|e errors] eqn:Ee;
    [|intros []].
  change (0 <? List.length (@nil jsstring))%nat with false. cbv iota.
  destruct (build_row req b) as [row|] eqn:Er;
    [|intros [H|[]]; discriminate].
  cbv zeta.
  match goal with
  | |- context [fetch ?c] => set (call := c)
  end.
  intros Hin.
  assert (E : r = call).
  { revert Hin. destruct (fetch call) as [ok code text|];
      [destruct (negb ok); [destruct text|]|]; simpl; intros Hin;
      repeat destruct Hin as [Hin|Hin];
      try discriminate; try contradiction; congruence. }
  exists b. do 2 eexists. exists row.
  split; [reflexivity|]. split; [exact Ee|]. split; [exact Er | exact E].
Qed.

Lemma validation_errors_nil (b : value) :
  validation_errors URL_parses b = [] ->
  stripHtml (get b (lit "type")) = lit "talent"
  \/ stripHtml (get b (lit "type")) = lit "vendor".
Proof.
  unfold validation_errors. cbv zeta. intros H.
  do 3 (apply push_if_nil in H as [_ H]).
  destruct (jsstring_eqb _ (lit "vendor"));
    [apply push_if_nil in H as [_ H]|];
    (destruct (jsstring_eqb _ (lit "talent"));
     [apply push_if_nil in H as [_ H]|]);
    do 3 (apply push_if_nil in H as [_ H]);
    apply push_if_nil in H as [H _];
    apply negb_false_iff, includes_In in H;
    simpl in H; intuition.
Qed.

Lemma build_row_talent (req : request) (b : value) :
  stripHtml (get b (lit "type")) = lit "talent" ->
  build_row req b =
  match ToNumber (get b (lit "years_experience")) with
  | None => None
  | Some years =>
      Some (VObj (common_properties req b
                  ++ [ (lit "primary_discipline",
                         VStr (stripHtml (get b (lit "primary_discipline"))));
                       (lit "disciplines",
                         strip_array (get b (lit "disciplines")));
                       (lit "years_experience",
                         or_else (VNum years) VNull) ]))
  end.
Proof.
  intros H. unfold build_row. cbv zeta.
  replace (jsstring_eqb (stripHtml (get b (lit "type"))) (lit "talent"))
    with true by (rewrite H; reflexivity).
  replace (jsstring_eqb (stripHtml (get b (lit "type"))) (lit "vendor"))
    with false by (rewrite H; reflexivity).
  destruct (ToNumber (get b (lit "years_experience"))); reflexivity.
Qed.

Lemma build_row_vendor (req : request) (b : value) :
  stripHtml (get b (lit "type")) = lit "vendor" ->
  build_row req b =
  Some (VObj (common_properties req b
              ++ [ (lit "vendor_type",
                     VStr (stripHtml (get b (lit "vendor_type"))));
                   (lit "services_offered",
                     strip_array (get b (lit "services_offered"))) ])).
Proof.
  intros H. unfold build_row. cbv zeta.
  replace (jsstring_eqb (stripHtml (get b (lit "type"))) (lit "talent"))
    with false by (rewrite H; reflexivity).
  replace (jsstring_eqb (stripHtml (get b (lit "type"))) (lit "vendor"))
    with true by (rewrite H; reflexivity).
  reflexivity.
Qed.

Lemma or_else_cases (a b : value) : or_else a b = a \/ or_else a b = b.
Proof. unfold or_else. destruct (ToBoolean a); auto. Qed.

Lemma or_null_string (x s : jsstring) : or_null x = VStr s -> s = x.
Proof.
  unfold or_null. destruct (or_else_cases (VStr x) VNull) as [-> | ->];
    congruence.
Qed.

Lemma header_string (h : option jsstring) :
  header h = VUndefined \/ exists s, header h = VStr s.
Proof. destruct h; simpl; eauto. Qed.

Lemma strip_array_elements (x : value) (elems : list value) (s : jsstring) :
  strip_array x = VArr elems -> In (VStr s) elems -> sanitized s.
Proof.
  destruct x; simpl; try discriminate.
  intros H. injection H as <-. intros Hin.
  apply in_map_iff in Hin as (s' & E & Hin). injection E as ->.
  apply filter_In in Hin as [Hin _].
  apply in_map_iff in Hin as (v & <- & _). apply stripHtml_sanitized.
Qed.

Lemma strip_array_not_string (x : value) (s : jsstring) :
  strip_array x <> VStr s.
Proof. destruct x; discriminate. Qed.

(** The properties of a row other than the two taken from the request
    headers hold sanitized strings, and its arrays too. *)
Lemma row_strings_sanitized (req : request) (b : value)
      (extra : list (jsstring * value)) :
  (forall k s, In (k, VStr s) extra -> sanitized s) ->
  forall k s,
    In (k, VStr s) (common_properties req b ++ extra) ->
    k <> lit "ip_address" -> k <> lit "user_agent" -> sanitized s.
Proof.
  intros Hextra k s Hin Hip Hua.
  apply in_app_iff in Hin as [Hin | Hin]; [|eauto].
  unfold common_properties in Hin. cbv zeta in Hin.
  repeat (destruct Hin as [Hin | Hin];
          [ injection Hin as Hk Hv;
            first [ congruence
                  | apply or_null_string in Hv; subst s;
                    apply stripHtml_sanitized
                  | subst s; apply stripHtml_sanitized ]
          | ]).
  destruct Hin.
Qed.

Lemma or_else_not_array (a b : value) (elems : list value) :
  a <> VArr elems -> b <> VArr elems -> or_else a b <> VArr elems.
Proof. intros Ha Hb. destruct (or_else_cases a b) as [-> | ->]; assumption. Qed.

Lemma header_not_array (h : option jsstring) (elems : list value) :
  header h <> VArr elems.
Proof. destruct h; discriminate. Qed.

Lemma common_properties_no_array (req : request) (b : value) k elems :
  ~ In (k, VArr elems) (common_properties req b).
Proof.
  unfold common_properties. cbv zeta. intros Hin.
  repeat (destruct Hin as [Hin | Hin];
          [ first [ discriminate Hin
                  | injection Hin as _ Hv; revert Hv;
                    repeat apply or_else_not_array;
                    first [ apply header_not_array | discriminate ] ]
          | ]).
  destruct Hin.
Qed.

(** C9, amended. The row of every accepted submission has [type] talent
    or vendor; every string in it that comes from the request body (all
    its string properties but [ip_address] and [user_agent], and the
    elements of its arrays) has had tags stripped and been trimmed: it
    has no match of the tag pattern and no whitespace at either end.
    [ip_address] and [user_agent] are request headers, passed on as
    received. *)
Theorem forwarded_row_sanitized (env : environment) (req : request)
        (r : fetch_request) :
  In (Fetched r) (trace (handler URL_parses fetch env req)) ->
  exists props,
    fetch_row r = VObj props
    /\ (lookup (lit "type") props = Some (VStr (lit "talent"))
        \/ lookup (lit "type") props = Some (VStr (lit "vendor")))
    /\ (forall k s, In (k, VStr s) props ->
                    k <> lit "ip_address" -> k <> lit "user_agent" ->
                    sanitized s)
    /\ (forall k elems s, In (k, VArr elems) props ->
                          In (VStr s) elems -> sanitized s)
    /\ lookup (lit "ip_address") props
       = Some (or_else (or_else (header (x_forwarded_for (req_headers req)))
                                (header (x_real_ip (req_headers req))))
                       VNull)
    /\ lookup (lit "user_agent") props
       = Some (or_else (header (user_agent (req_headers req))) VNull).
Proof.
  intros Hin.
  apply handler_fetched in Hin as (b & u & k & row & _ & Hv & Hr & ->).
  apply validation_errors_nil in Hv.
  assert (Hextra_s : forall extra,
             (forall k s, In (k, VStr s) extra -> sanitized s) ->
             forall k s, In (k, VStr s) (common_properties req b ++ extra) ->
                         k <> lit "ip_address" -> k <> lit "user_agent" ->
                         sanitized s)
    by (intros; eapply row_strings_sanitized; eauto).
  assert (Hextra_a : forall extra,
             (forall k elems s, In (k, VArr elems) extra ->
                                In (VStr s) elems -> sanitized s) ->
             forall k elems s,
               In (k, VArr elems) (common_properties req b ++ extra) ->
               In (VStr s) elems -> sanitized s).
  { intros extra He k0 elems s Hi Hs.
    apply in_app_iff in Hi as [Hi | Hi]; [|eauto].
    exfalso. eapply common_properties_no_array; eassumption. }
  destruct Hv as [Ht | Ht]; simpl fetch_row.
  - rewrite (build_row_talent req b Ht) in Hr.
    destruct (ToNumber (get b (lit "years_experience"))) as [years|];
      [|discriminate].
    injection Hr as <-. eexists. split; [reflexivity|].
    split; [left; simpl; rewrite Ht; reflexivity|].
    split; [|split; [|split; reflexivity]].
    + apply Hextra_s. intros k0 s Hi.
      repeat (destruct Hi as [Hi | Hi]; [injection Hi as Hk Hs|]).
      * subst s. apply stripHtml_sanitized.
      * exfalso. eapply strip_array_not_string; eassumption.
      * destruct (or_else_cases (VNum years) VNull)
          as [E | E]; rewrite E in Hs; discriminate.
      * destruct Hi.
    + apply Hextra_a. intros k0 elems s Hi Hs.
      repeat (destruct Hi as [Hi | Hi];
              [first [discriminate Hi | injection Hi as Hk Hv]|]).
      * eapply strip_array_elements; eassumption.
      * destruct (or_else_cases (VNum years) VNull)
          as [E | E]; rewrite E in Hv; discriminate.
      * destruct Hi.
  - rewrite (build_row_vendor req b Ht) in Hr.
    injection Hr as <-. eexists. split; [reflexivity|].
    split; [right; simpl; rewrite Ht; reflexivity|].
    split; [|split; [|split; reflexivity]].
    + apply Hextra_s. intros k0 s Hi.
      repeat (destruct Hi as [Hi | Hi]; [injection Hi as Hk Hs|]).
      * subst s. apply stripHtml_sanitized.
      * exfalso. eapply strip_array_not_string; eassumption.
      * destruct Hi.
    + apply Hextra_a. intros k0 elems s Hi Hs.
      repeat (destruct Hi as [Hi | Hi];
              [first [discriminate Hi | injection Hi as Hk Hv]|]).
      * eapply strip_array_elements; eassumption.
      * destruct Hi.
Qed.

(** C10. In the row of a talent application, [years_experience] is
    [null] when the submitted value is the number 0 (of either sign) or
    the string "0", exactly as when it is missing or not numeric. *)
Theorem zero_experience_is_null (env : environment) (req : request)
        (r : fetch_request) (b : value) :
  In (Fetched r) (trace (handler URL_parses fetch env req)) ->
  parsed_body req = Some b ->
  stripHtml (get b (lit "type")) = lit "talent" ->
  (exists sign, get b (lit "years_experience") = VNum (S754_zero sign))
  \/ get b (lit "years_experience") = VStr (lit "0")
  \/ ToNumber (get b (lit "years_experience")) = Some S754_nan ->
  exists props,
    fetch_row r = VObj props
    /\ lookup (lit "years_experience") props = Some VNull.
Proof.
  intros Hin Hb Ht Hy.
  apply handler_fetched in Hin as (b' & u & k & row & Hb' & _ & Hr & ->).
  rewrite Hb in Hb'. injection Hb' as <-.
  simpl fetch_row. rewrite (build_row_talent req b Ht) in Hr.
  destruct (ToNumber (get b (lit "years_experience"))) as [years|] eqn:Ey;
    [|discriminate].
  injection Hr as <-. eexists. split; [reflexivity|].
  change (lookup (lit "years_experience") _)
    with (Some (or_else (VNum years) VNull)).
  destruct Hy as [[sign Hy] | [Hy | Hy]].
  - rewrite Hy in Ey. injection Ey as <-. reflexivity.
  - rewrite Hy in Ey. lazy in Ey. injection Ey as <-. reflexivity.
  - injection Hy as ->. reflexivity.
Qed.

End HandlerProperties.

(** ** [stripHtml], as the specification states it *)

(** C4. [stripHtml] returns the empty string for every value that is not a
    string; for every value its result has no part that matches the tag
    pattern and neither starts nor ends with whitespace. *)
Theorem stripHtml_sanitizes (v : value) :
  (is_string v = false -> stripHtml v = [])
  /\ no_tag (stripHtml v)
  /\ no_outer_space (stripHtml v).
Proof.
  split; [|exact (stripHtml_sanitized v)].
  destruct v; simpl; (reflexivity || discriminate).
Qed.

(** C5. Sanitizing twice is sanitizing once. *)
Theorem stripHtml_idempotent (x : jsstring) :
  stripHtml (VStr (stripHtml (VStr x))) = stripHtml (VStr x).
Proof. apply stripHtml_fixed, stripHtml_sanitized. Qed.

(** ** The claims at concrete requests *)

Lemma stripHtml_sanitizes_example :
  stripHtml (VNum (of_decimal false 5 0)) = []
  /\ stripHtml (VStr (lit "  <b>hi</b> there ")) = lit "hi there"
  /\ no_tag (lit "hi there").
Proof.
  split; [|split].
  - apply (proj1 (stripHtml_sanitizes (VNum (of_decimal false 5 0)))).
    reflexivity.
  - reflexivity.
  - exact (proj1 (proj2 (stripHtml_sanitizes (VStr (lit "  <b>hi</b> there "))))).
Defined.

(** Scenario 3: a filled honeypot hides every other defect. *)
Lemma honeypot_accepts_example :
  handler URL_constructs accepting example_env spam_request
  = {| reply := respond spam_request 200 (Some obj_ok); trace := [] |}.
Proof.
  apply (honeypot_accepts URL_constructs accepting example_env spam_request
           (VObj [ (lit "website_url", VStr (lit "http://spam.example"));
                   (lit "type", VStr (lit "nonsense")) ])).
  - reflexivity.
  - reflexivity.
  - vm_compute. reflexivity.
  - vm_compute. discriminate.
Defined.

(** C2 as stated fails: the text ["{"] is not JSON, and the answer is 500
    [{error: "Internal server error"}], not 400; the same goes for the
    empty string. *)
Lemma unparseable_body_is_500 :
  JSON_parse (lit "{") = None
  /\ parse_value (2 * List.length (lit "{") + 1) (lit "{") = SyntaxError
  /\ reply (handler URL_constructs accepting example_env
                    (post no_headers (VStr (lit "{"))))
     = respond (post no_headers (VStr (lit "{"))) 500
               (Some (obj_error "Internal server error"))
  /\ reply (handler URL_constructs accepting example_env
                    (post no_headers (VStr (lit "{"))))
     <> respond (post no_headers (VStr (lit "{"))) 400
                (Some (obj_error "Missing request body"))
  /\ JSON_parse [] = None
  /\ reply (handler URL_constructs accepting example_env
                    (post no_headers (VStr [])))
     = respond (post no_headers (VStr [])) 500
               (Some (obj_error "Internal server error")).
Proof.
  split; [reflexivity|]. split; [reflexivity|].
  split; [reflexivity|]. split; [vm_compute; discriminate|].
  split; reflexivity.
Qed.

Lemma missing_body_rejected_example :
  handler URL_constructs accepting example_env (post no_headers VUndefined)
  = {| reply := respond (post no_headers VUndefined) 400
                  (Some (obj_error "Missing request body"));
       trace := [] |}
  /\ handler URL_constructs accepting example_env
             (post no_headers (VStr (lit "null")))
     = {| reply := respond (post no_headers (VStr (lit "null"))) 400
                     (Some (obj_error "Missing request body"));
          trace := [] |}
  /\ handler URL_constructs accepting example_env
             (post no_headers (VStr (lit "{")))
     = {| reply := respond (post no_headers (VStr (lit "{"))) 500
                     (Some (obj_error "Internal server error"));
          trace := [ConsoleError (lit "Application handler error:")] |}
  /\ handler URL_constructs accepting example_env (post no_headers (VStr []))
     = {| reply := respond (post no_headers (VStr [])) 500
                     (Some (obj_error "Internal server error"));
          trace := [ConsoleError (lit "Application handler error:")] |}.
Proof.
  split; [|split; [|split]].
  - apply (proj1 (missing_body_rejected URL_constructs accepting example_env
                    (post no_headers VUndefined) eq_refl eq_refl));
      reflexivity.
  - apply (proj1 (proj2 (missing_body_rejected URL_constructs accepting
                           example_env (post no_headers (VStr (lit "null")))
                           eq_refl eq_refl))
                 (lit "null") VNull);
      reflexivity.
  - apply (proj1 (proj2 (proj2 (missing_body_rejected URL_constructs accepting
                                  example_env (post no_headers (VStr (lit "{")))
                                  eq_refl eq_refl)))
                 (lit "{"));
      reflexivity.
  - apply (proj2 (proj2 (proj2 (missing_body_rejected URL_constructs accepting
                                  example_env (post no_headers (VStr []))
                                  eq_refl eq_refl))));
      reflexivity.
Defined.

(** C3. The code does not do what the claim says: lines 91-93 check the
    value as it arrived, and lines 106-108 store it sanitized. The website
    ["foo:<x>//a b"] parses as a URL, so the application is accepted; what
    is stored is ["foo://a b"], which is not empty and does not parse, and
    for which the claim asks for the message
    ["Invalid website URL"]. *)
Theorem stored_url_not_validated :
  let website := lit "foo:<x>//a b" in
  let b := talent_body [(lit "website", VStr website)] in
  let req := post no_headers b in
  URL_constructs website = true
  /\ stripHtml (VStr website) = lit "foo://a b"
  /\ URL_constructs (lit "foo://a b") = false
  /\ validation_errors URL_constructs b = []
  /\ exists row,
      handler URL_constructs accepting example_env req
      = {| reply := respond req 200 (Some obj_ok);
           trace := [Fetched (insert_request (lit "https://db.example")
                                             (lit "service-key") row)] |}
      /\ get row (lit "website") = VStr (lit "foo://a b").
Proof.
  cbv zeta.
  split; [vm_compute; reflexivity|]. split; [vm_compute; reflexivity|].
  split; [vm_compute; reflexivity|]. split; [vm_compute; reflexivity|].
  eexists. split; vm_compute; reflexivity.
Qed.

(** Two more websites where the check and the claim part. ["<b></b>"] is
    empty after sanitization, yet its message is appended;
    ["<b>https://a.com</b>"] is a well-formed URL after sanitization, yet
    its message is appended too. In both cases the raw value is what
    [new URL] is given. *)
Lemma raw_url_is_validated :
  (stripHtml (VStr (lit "<b></b>")) = []
   /\ reply (handler URL_constructs accepting example_env
                     (post no_headers
                           (talent_body [(lit "website", VStr (lit "<b></b>"))])))
      = respond (post no_headers
                      (talent_body [(lit "website", VStr (lit "<b></b>"))]))
                400
                (Some (VObj [ (lit "error", VStr (lit "Validation failed"));
                              (lit "details",
                                VArr [VStr (lit "Invalid website URL")]) ])))
  /\ (stripHtml (VStr (lit "<b>https://a.com</b>")) = lit "https://a.com"
      /\ URL_constructs (lit "https://a.com") = true
      /\ validation_errors URL_constructs
           (talent_body [(lit "website", VStr (lit "<b>https://a.com</b>"))])
         = [lit "Invalid website URL"]).
Proof. repeat split; vm_compute; reflexivity. Qed.

(** Scenario 2, sent as JSON text. *)
Lemma validation_collects_all_example :
  handler URL_constructs accepting example_env (post no_headers (VStr scenario2_text))
  = {| reply :=
         respond (post no_headers (VStr scenario2_text)) 400
           (Some (VObj [ (lit "error", VStr (lit "Validation failed"));
                         (lit "details",
                           VArr [ VStr (lit "Name is required (min 2 characters)");
                                  VStr (lit "Valid email is required");
                                  VStr (lit "Bio must be at least 50 characters");
                                  VStr (lit "Vendor type is required") ]) ]));
       trace := [] |}.
Proof.
  apply (validation_collects_all URL_constructs accepting example_env
           (post no_headers (VStr scenario2_text))).
  - reflexivity.
  - reflexivity.
  - vm_compute. reflexivity.
Defined.

(** C7 as stated fails: without any configuration an OPTIONS request is
    answered 200 and a GET request 405, not 500. *)
Lemma preflight_without_configuration :
  is_configured no_env = false
  /\ reply (handler URL_constructs accepting no_env
                    {| method := lit "OPTIONS"; req_headers := no_headers;
                       body := VUndefined |})
     = {| status := 200;
          headers := [ (lit "Access-Control-Allow-Methods", lit "POST, OPTIONS");
                       (lit "Access-Control-Allow-Headers", lit "Content-Type") ];
          json := None |}
  /\ status (reply (handler URL_constructs accepting no_env
                            {| method := lit "GET"; req_headers := no_headers;
                               body := VUndefined |})) = 405%N.
Proof. repeat split. Qed.

Lemma missing_configuration_example :
  handler URL_constructs accepting no_env (post no_headers (VStr (lit "{")))
  = {| reply := respond (post no_headers (VStr (lit "{"))) 500
                  (Some (obj_error "Server configuration error"));
       trace := [] |}.
Proof.
  exact (missing_configuration URL_constructs accepting no_env
           (post no_headers (VStr (lit "{"))) eq_refl).
Defined.

(** Scenarios 4 and 5: a preflight from a local origin gets that origin
    back; an application from a production domain too; one from another
    origin, or from none, gets no such header and is processed like
    any other. *)
Lemma cors_allow_origin_example :
  let allow_origin (req : request) :=
    header_value (lit "Access-Control-Allow-Origin")
      (headers (reply (handler URL_constructs accepting example_env req))) in
  let preflight :=
    {| method := lit "OPTIONS"; req_headers := sent_from "http://localhost:3000";
       body := VUndefined |} in
  let production := post (sent_from "https://www.thirty3labs.com") (talent_body []) in
  let elsewhere := post (sent_from "https://evil.example") (talent_body []) in
  allow_origin preflight = Some (lit "http://localhost:3000")
  /\ allow_origin production = Some (lit "https://www.thirty3labs.com")
  /\ allow_origin elsewhere = None
  /\ allow_origin (post no_headers (talent_body [])) = None
  /\ status (reply (handler URL_constructs accepting example_env elsewhere))
     = status (reply (handler URL_constructs accepting example_env production))
  /\ json (reply (handler URL_constructs accepting example_env elsewhere))
     = Some obj_ok
  /\ trace (handler URL_constructs accepting example_env elsewhere)
     = trace (handler URL_constructs accepting example_env production)
  /\ count_fetches (trace (handler URL_constructs accepting example_env elsewhere))
     = 1%nat.
Proof.
  cbv zeta.
  split; [|split; [|split; [|split; [|split; [|split; [|split]]]]]].
  - apply (proj1 (cors_allow_origin URL_constructs accepting example_env
                    {| method := lit "OPTIONS";
                       req_headers := sent_from "http://localhost:3000";
                       body := VUndefined |})).
    right. right. exists (lit ":3000"). reflexivity.
  - apply (proj1 (cors_allow_origin URL_constructs accepting example_env
                    (post (sent_from "https://www.thirty3labs.com") (talent_body [])))).
    right. left. reflexivity.
  - apply (proj1 (proj2 (cors_allow_origin URL_constructs accepting example_env
                           (post (sent_from "https://evil.example") (talent_body []))))).
    intros [H | [H | [rest H]]]; vm_compute in H; discriminate H.
  - apply (proj1 (proj2 (cors_allow_origin URL_constructs accepting example_env
                           (post no_headers (talent_body []))))).
    intros [H | [H | [rest H]]]; vm_compute in H; discriminate H.
  - apply (proj2 (proj2 (proj2
             (cors_allow_origin URL_constructs accepting example_env
                (post (sent_from "https://www.thirty3labs.com") (talent_body [])))))
             (Some (lit "https://evil.example"))).
  - vm_compute. reflexivity.
  - apply (proj2 (proj2 (proj2
             (cors_allow_origin URL_constructs accepting example_env
                (post (sent_from "https://www.thirty3labs.com") (talent_body [])))))
             (Some (lit "https://evil.example"))).
  - vm_compute. reflexivity.
Defined.

(** C9 as stated fails: the [User-Agent] header ["<b>bot</b> "] reaches
    the row as it is, with its tags and its trailing space. *)
Lemma user_agent_is_forwarded_raw :
  exists row,
    build_row (post tagged_agent (talent_body [])) (talent_body []) = Some row
    /\ trace (handler URL_constructs accepting example_env
                      (post tagged_agent (talent_body [])))
       = [Fetched (insert_request (lit "https://db.example") (lit "service-key")
                                  row)]
    /\ get row (lit "user_agent") = VStr (lit "<b>bot</b> ")
    /\ has_tag (lit "<b>bot</b> ") = true
    /\ matches tag_pattern (lit "<b>")
    /\ ~ sanitized (lit "<b>bot</b> ").
Proof.
  eexists.
  split; [vm_compute; reflexivity|].
  split; [vm_compute; reflexivity|].
  split; [vm_compute; reflexivity|].
  split; [reflexivity|].
  split; [apply accepts_matches; reflexivity|].
  intros [Ht _]. apply no_tag_has_tag in Ht. discriminate.
Qed.

Lemma forwarded_row_sanitized_example :
  exists r,
    trace (handler URL_constructs accepting example_env
                   (post tagged_agent (talent_body [])))
    = [Fetched r]
    /\ exists props,
        fetch_row r = VObj props
        /\ (lookup (lit "type") props = Some (VStr (lit "talent"))
            \/ lookup (lit "type") props = Some (VStr (lit "vendor")))
        /\ (forall k s, In (k, VStr s) props ->
                        k <> lit "ip_address" -> k <> lit "user_agent" ->
                        sanitized s)
        /\ (forall k elems s, In (k, VArr elems) props ->
                              In (VStr s) elems -> sanitized s)
        /\ lookup (lit "ip_address") props
           = Some (or_else (or_else (header (x_forwarded_for tagged_agent))
                                    (header (x_real_ip tagged_agent)))
                           VNull)
        /\ lookup (lit "user_agent") props
           = Some (or_else (header (user_agent tagged_agent)) VNull).
Proof.
  eexists. split; [vm_compute; reflexivity|].
  apply (forwarded_row_sanitized URL_constructs accepting example_env
           (post tagged_agent (talent_body []))).
  left. vm_compute. reflexivity.
Defined.

Lemma zero_experience_is_null_example :
  exists r,
    trace (handler URL_constructs accepting example_env
                   (post no_headers
                         (talent_body [(lit "years_experience", VNum pos_zero)])))
    = [Fetched r]
    /\ exists props,
        fetch_row r = VObj props
        /\ lookup (lit "years_experience") props = Some VNull.
Proof.
  eexists. split; [vm_compute; reflexivity|].
  apply (zero_experience_is_null URL_constructs accepting example_env
           (post no_headers
                 (talent_body [(lit "years_experience", VNum pos_zero)]))
           _
           (talent_body [(lit "years_experience", VNum pos_zero)])).
  - left. vm_compute. reflexivity.
  - reflexivity.
  - vm_compute. reflexivity.
  - left. exists false. reflexivity.
Defined.

(** * More properties of the code *)

(** ** Subsequences *)

Lemma subsequence_refl {A : Type} (l : list A) : subsequence l l.
Proof. induction l; constructor; assumption. Qed.

Lemma subsequence_nil {A : Type} (l : list A) : subsequence [] l.
Proof. induction l; constructor; assumption. Qed.

Lemma subsequence_trans {A : Type} (l1 l2 l3 : list A) :
  subsequence l1 l2 -> subsequence l2 l3 -> subsequence l1 l3.
Proof.
  intros H12 H23. revert l1 H12.
  induction H23 as [|x l2 l3 _ IH|x l2 l3 _ IH]; intros l1 H12.
  - assumption.
  - inversion H12; subst; constructor; auto.
  - constructor. auto.
Qed.

Lemma subsequence_app {A : Type} (a l z : list A) :
  subsequence l (a ++ l ++ z).
Proof.
  induction a as [|x a IH]; simpl; [|constructor; assumption].
  induction l as [|y l IHl]; simpl; [apply subsequence_nil|].
  constructor. assumption.
Qed.

Lemma subsequence_length {A : Type} (l1 l2 : list A) :
  subsequence l1 l2 -> (List.length l1 <= List.length l2)%nat.
Proof. induction 1; simpl; lia. Qed.

Lemma subsequence_In {A : Type} (l1 l2 : list A) (x : A) :
  subsequence l1 l2 -> In x l1 -> In x l2.
Proof. induction 1; simpl; intuition. Qed.

Lemma subsequence_NoDup {A : Type} (l1 l2 : list A) :
  subsequence l1 l2 -> NoDup l2 -> NoDup l1.
Proof.
  induction 1 as [|x l1 l2 H IH|x l1 l2 H IH]; intros Hn.
  - constructor.
  - inversion Hn; subst. constructor; [|auto].
    intros Hin. eauto using subsequence_In.
  - inversion Hn; subst. auto.
Qed.

Lemma subsequence_snoc {A : Type} (l1 l2 : list A) (x : A) :
  subsequence l1 l2 ->
  subsequence (l1 ++ [x]) (l2 ++ [x]) /\ subsequence l1 (l2 ++ [x]).
Proof.
  induction 1 as [|y l1 l2 H [IH1 IH2]|y l1 l2 H [IH1 IH2]]; simpl.
  - split; repeat constructor.
  - split; constructor; assumption.
  - split; constructor; assumption.
Qed.

(** ** More on [stripHtml] *)

Lemma replace_tags_subsequence (s : jsstring) :
  subsequence (replace_tags s) s /\ subsequence (inside_tag s) s.
Proof.
  induction s as [|c s [IHr IHi]]; simpl; [split; constructor|]. split.
  - destruct (is_char "<" c && has_gt s); constructor; assumption.
  - destruct (is_char ">" c); constructor; assumption.
Qed.

(** X1. [stripHtml] only removes code units: its result is a subsequence
    of the string it is given, so it is never longer and holds nothing
    that was not there. *)
Theorem stripHtml_only_deletes (s : jsstring) :
  subsequence (stripHtml (VStr s)) s
  /\ (List.length (stripHtml (VStr s)) <= List.length s)%nat.
Proof.
  assert (H : subsequence (stripHtml (VStr s)) s).
  { simpl. destruct (trim_substring (replace_tags s)) as (a & z & E).
    apply subsequence_trans with (replace_tags s).
    - rewrite E at 2. apply subsequence_app.
    - apply replace_tags_subsequence. }
  split; [exact H | apply subsequence_length, H].
Qed.

(** X2. The strings [stripHtml] leaves as they are, are exactly the
    strings without a tag match and without whitespace at either end. *)
Theorem stripHtml_fixed_points (s : jsstring) :
  stripHtml (VStr s) = s <-> sanitized s.
Proof.
  split.
  - intros E. rewrite <- E. apply stripHtml_sanitized.
  - apply stripHtml_fixed.
Qed.

(** X3. A string without a tag match is only trimmed: in particular a
    [<] that no [>] follows stays in the text. *)
Theorem stripHtml_plain_text (s : jsstring) :
  no_tag s -> stripHtml (VStr s) = trim s.
Proof.
  intros H. simpl. rewrite replace_tags_id; [reflexivity|].
  apply no_tag_has_tag, H.
Qed.

Lemma stripHtml_plain_text_example :
  stripHtml (VStr (lit " rates < 100 an hour, <b ")) = lit "rates < 100 an hour, <b".
Proof.
  rewrite (stripHtml_plain_text (lit " rates < 100 an hour, <b ")).
  - reflexivity.
  - apply no_tag_has_tag. reflexivity.
Defined.

Lemma replace_tags_plain (a x : jsstring) :
  forallb (not_char "<") a = true ->
  replace_tags (a ++ x) = a ++ replace_tags x.
Proof.
  induction a as [|c a IH]; simpl; [reflexivity|].
  rewrite not_char_is_char. intros H.
  apply andb_true_iff in H as [Hc Ha].
  apply negb_true_iff in Hc. rewrite Hc. simpl. rewrite IH; auto.
Qed.

(** X4. A match of the tag pattern that follows text without any [<] is
    removed whole: the result is that of the string without the match. *)
Theorem stripHtml_drops_tag (a t z : jsstring) :
  forallb (not_char "<") a = true ->
  matches tag_pattern t ->
  stripHtml (VStr (a ++ t ++ z)) = stripHtml (VStr (a ++ z)).
Proof.
  intros Ha Ht. simpl.
  rewrite (replace_tags_plain a (t ++ z)), (replace_tags_plain a z)
    by assumption.
  rewrite replace_tags_match by assumption. reflexivity.
Qed.

Lemma stripHtml_drops_tag_example :
  stripHtml (VStr (lit "Jo " ++ lit "<script src='x'>" ++ lit "Smith"))
  = stripHtml (VStr (lit "Jo " ++ lit "Smith")).
Proof.
  apply stripHtml_drops_tag.
  - reflexivity.
  - apply accepts_matches. reflexivity.
Defined.

(** ** [isValidEmail] *)

Lemma plus_class_forallb (p : code_unit -> bool) (s : jsstring) :
  matches (Plus (Class p)) s <-> s <> [] /\ forallb p s = true.
Proof.
  unfold Plus. split.
  - intros H. apply matches_Seq_inv in H as (s1 & s2 & -> & H1 & H2).
    inv H1. apply star_class_forallb in H2. simpl. split; [discriminate|].
    apply andb_true_iff. auto.
  - intros [Hn Hs]. destruct s as [|c s]; [congruence|].
    simpl in Hs. apply andb_true_iff in Hs as [Hc Hs].
    apply (m_seq _ _ [c] s); [constructor; assumption|].
    apply star_class_forallb, Hs.
Qed.

Lemma email_pattern_shape (email : jsstring) :
  matches email_pattern email <->
  exists local domain tld,
    email = local ++ chr "@" :: domain ++ chr "." :: tld
    /\ local <> [] /\ domain <> [] /\ tld <> []
    /\ forallb email_char local = true
    /\ forallb email_char domain = true
    /\ forallb email_char tld = true.
Proof.
  unfold email_pattern. split.
  - intros H.
    apply matches_Seq_inv in H as (l & r1 & -> & Hl & H).
    apply matches_Seq_inv in H as (at_ & r2 & -> & Hat & H).
    apply matches_Seq_inv in H as (d & r3 & -> & Hd & H).
    apply matches_Seq_inv in H as (dot & t & -> & Hdot & Ht).
    inv Hat. inv Hdot.
    repeat match goal with E : is_char _ _ = true |- _ =>
      apply is_char_eq in E; subst end.
    apply plus_class_forallb in Hl as [? ?], Hd as [? ?], Ht as [? ?].
    exists l, d, t. simpl. auto 10.
  - intros (l & d & t & -> & Hl & Hd & Ht & Fl & Fd & Ft).
    apply (m_seq _ _ l); [apply plus_class_forallb; auto|].
    apply (m_seq _ _ [chr "@"]); [constructor; reflexivity|].
    apply (m_seq _ _ d); [apply plus_class_forallb; auto|].
    apply (m_seq _ _ [chr "."]); [constructor; reflexivity|].
    apply plus_class_forallb; auto.
Qed.

(** X5. [isValidEmail] accepts exactly the strings of the form
    [local@domain.tld] where each of the three parts is non-empty and
    holds neither whitespace nor [@] (the parts may hold further dots). *)
Theorem isValidEmail_shape (email : jsstring) :
  isValidEmail email = true <->
  exists local domain tld,
    email = local ++ chr "@" :: domain ++ chr "." :: tld
    /\ local <> [] /\ domain <> [] /\ tld <> []
    /\ forallb email_char local = true
    /\ forallb email_char domain = true
    /\ forallb email_char tld = true.
Proof.
  unfold isValidEmail. rewrite accepts_matches. apply email_pattern_shape.
Qed.

Lemma email_chars_facts (l : jsstring) :
  forallb email_char l = true ->
  forallb (fun c => negb (is_space c)) l = true
  /\ count_occ N.eq_dec l (chr "@") = O.
Proof.
  induction l as [|c l IH]; simpl; [auto|].
  intros H. apply andb_true_iff in H as [Hc Hl].
  destruct (IH Hl) as [Hs Hn]. unfold email_char in Hc.
  apply andb_true_iff in Hc as [Hsp Hat]. rewrite Hsp, Hs.
  split; [reflexivity|].
  match goal with
  | |- context [N.eq_dec ?x ?y] => destruct (N.eq_dec x y) as [E|E]
  end; [|assumption].
  exfalso. subst c. discriminate Hat.
Qed.

(** X6. An address that [isValidEmail] accepts has no whitespace, has
    exactly one [@] and has at least five code units. *)
Theorem valid_email_facts (email : jsstring) :
  isValidEmail email = true ->
  forallb (fun c => negb (is_space c)) email = true
  /\ count_occ N.eq_dec email (chr "@") = 1%nat
  /\ (5 <= List.length email)%nat.
Proof.
  intros H. apply accepts_matches in H.
  apply email_pattern_shape in H
    as (l & d & t & -> & Hl & Hd & Ht & Fl & Fd & Ft).
  apply email_chars_facts in Fl as [Sl Cl], Fd as [Sd Cd], Ft as [St Ct].
  repeat split.
  - rewrite forallb_app. simpl. rewrite forallb_app. simpl.
    rewrite Sl, Sd, St. reflexivity.
  - rewrite count_occ_app, count_occ_cons_eq by reflexivity.
    rewrite count_occ_app, count_occ_cons_neq by discriminate.
    unfold code_unit in *. rewrite Cl, Cd, Ct. reflexivity.
  - rewrite length_app. simpl. rewrite length_app. simpl.
    destruct l, d, t; simpl; try congruence; lia.
Qed.

Lemma valid_email_facts_example :
  forallb (fun c => negb (is_space c)) (lit "jo@x.com") = true
  /\ count_occ N.eq_dec (lit "jo@x.com") (chr "@") = 1%nat
  /\ (5 <= List.length (lit "jo@x.com"))%nat.
Proof. apply (valid_email_facts (lit "jo@x.com")). reflexivity. Defined.

(** ** More on validation *)

Lemma includes_false (l : list jsstring) (s : jsstring) :
  negb (includes l s) = true <-> ~ In s l.
Proof.
  rewrite negb_true_iff, <- includes_In.
  destruct (includes l s); split; congruence.
Qed.

Lemma too_short (s : jsstring) (n : nat) :
  (0 < n)%nat ->
  empty s || (List.length s <? n)%nat = true <-> (List.length s < n)%nat.
Proof.
  intros Hn. rewrite orb_true_iff, empty_nil, Nat.ltb_lt. split.
  - intros [-> | H]; simpl; lia.
  - auto.
Qed.

Lemma email_check (s : jsstring) :
  empty s || negb (isValidEmail s) = true <-> ~ matches email_pattern s.
Proof.
  unfold isValidEmail. rewrite orb_true_iff, empty_nil, negb_true_iff.
  rewrite <- accepts_matches. split.
  - intros [-> | H]; [discriminate | congruence].
  - intros H. right. destruct (accepts email_pattern s); congruence.
Qed.

Lemma listed_check (l : list jsstring) (s : jsstring) :
  includes l [] = false ->
  empty s || negb (includes l s) = true <-> ~ In s l.
Proof.
  intros Hl. rewrite orb_true_iff, empty_nil, includes_false. split.
  - intros [-> | H]; [|assumption].
    intros Hin. apply includes_In in Hin. congruence.
  - auto.
Qed.

(** Picks the disjunct that the hypotheses prove. *)
Ltac pick_disjunct :=
  repeat first
         [ solve [repeat split; (assumption || reflexivity)]
         | left; solve [repeat split; (assumption || reflexivity)]
         | right ].

(** Closes a goal with a hypothesis that equates two different literals. *)
Ltac other_message :=
  match goal with
  | H : lit _ = lit _ |- _ => vm_compute in H; discriminate H
  end.

Section MoreHandlerProperties.

Variable URL_parses : jsstring -> bool.
Variable fetch : fetch_request -> fetch_outcome.

(** Which message is in the [errors] array, and why. *)
Lemma In_validation_errors (b : value) (m : jsstring) :
  In m (validation_errors URL_parses b) <->
  (negb (includes VALID_TYPES (stripHtml (get b (lit "type")))) = true
   /\ m = lit "Invalid application type")
  \/ (empty (stripHtml (get b (lit "name")))
      || (List.length (stripHtml (get b (lit "name"))) <? 2)%nat = true
      /\ m = lit "Name is required (min 2 characters)")
  \/ (empty (stripHtml (get b (lit "email")))
      || negb (isValidEmail (stripHtml (get b (lit "email")))) = true
      /\ m = lit "Valid email is required")
  \/ (empty (stripHtml (get b (lit "bio")))
      || (List.length (stripHtml (get b (lit "bio"))) <? 50)%nat = true
      /\ m = lit "Bio must be at least 50 characters")
  \/ (jsstring_eqb (stripHtml (get b (lit "type"))) (lit "talent") = true
      /\ empty (stripHtml (get b (lit "primary_discipline")))
         || negb (includes TALENT_DISCIPLINES
                           (stripHtml (get b (lit "primary_discipline")))) = true
      /\ m = lit "Primary discipline is required")
  \/ (jsstring_eqb (stripHtml (get b (lit "type"))) (lit "vendor") = true
      /\ empty (stripHtml (get b (lit "vendor_type")))
         || negb (includes VENDOR_TYPES
                           (stripHtml (get b (lit "vendor_type")))) = true
      /\ m = lit "Vendor type is required")
  \/ (ToBoolean (get b (lit "website"))
      && negb (isValidUrl URL_parses (get b (lit "website"))) = true
      /\ m = lit "Invalid website URL")
  \/ (ToBoolean (get b (lit "portfolio_url"))
      && negb (isValidUrl URL_parses (get b (lit "portfolio_url"))) = true
      /\ m = lit "Invalid portfolio URL")
  \/ (ToBoolean (get b (lit "linkedin_url"))
      && negb (isValidUrl URL_parses (get b (lit "linkedin_url"))) = true
      /\ m = lit "Invalid LinkedIn URL").
Proof.
  unfold validation_errors. cbv zeta.
  destruct (jsstring_eqb (stripHtml (get b (lit "type"))) (lit "talent")),
           (jsstring_eqb (stripHtml (get b (lit "type"))) (lit "vendor"));
    rewrite !(In_push_if URL_parses); simpl In;
    (split;
     [ intros Hin;
       repeat match goal with
              | H : _ \/ _ |- _ => destruct H
              | H : _ /\ _ |- _ => destruct H
              | H : False |- _ => contradiction
              end; pick_disjunct
     | intros Hin;
       repeat match goal with
              | H : _ \/ _ |- _ => destruct H
              | H : _ /\ _ |- _ => destruct H
              | H : false = true |- _ => discriminate H
              end; auto 12 ]).
Qed.

(** X7. The four checks every application gets: "Invalid application type"
    is reported exactly when the sanitized type is neither talent nor
    vendor, the name message exactly when the sanitized name has fewer
    than 2 code units, the email message exactly when the sanitized email
    does not match the email pattern, and the bio message exactly when
    the sanitized bio has fewer than 50 code units. *)
Theorem required_fields_validated (b : value) :
  let errors := validation_errors URL_parses b in
  (In (lit "Invalid application type") errors <->
   ~ In (stripHtml (get b (lit "type"))) VALID_TYPES)
  /\ (In (lit "Name is required (min 2 characters)") errors <->
      (List.length (stripHtml (get b (lit "name"))) < 2)%nat)
  /\ (In (lit "Valid email is required") errors <->
      ~ matches email_pattern (stripHtml (get b (lit "email"))))
  /\ (In (lit "Bio must be at least 50 characters") errors <->
      (List.length (stripHtml (get b (lit "bio"))) < 50)%nat).
Proof.
  cbv zeta. rewrite !In_validation_errors.
  rewrite <- includes_false.
  rewrite <- (too_short (stripHtml (get b (lit "name"))) 2) by lia.
  rewrite <- (too_short (stripHtml (get b (lit "bio"))) 50) by lia.
  rewrite <- email_check.
  repeat split; intros H;
    repeat match goal with
           | H : _ \/ _ |- _ => destruct H
           | H : _ /\ _ |- _ => destruct H
           end;
    try other_message; try assumption; pick_disjunct.
Qed.

(** X8. The two checks that depend on the type: "Primary discipline is
    required" is reported exactly when the sanitized type is talent and
    the sanitized primary discipline is not one of the fifteen listed;
    "Vendor type is required" exactly when the type is vendor and the
    sanitized vendor type is not one of the nine listed. *)
Theorem type_fields_validated (b : value) :
  let errors := validation_errors URL_parses b in
  (In (lit "Primary discipline is required") errors <->
   stripHtml (get b (lit "type")) = lit "talent"
   /\ ~ In (stripHtml (get b (lit "primary_discipline"))) TALENT_DISCIPLINES)
  /\ (In (lit "Vendor type is required") errors <->
      stripHtml (get b (lit "type")) = lit "vendor"
      /\ ~ In (stripHtml (get b (lit "vendor_type"))) VENDOR_TYPES).
Proof.
  cbv zeta. rewrite !In_validation_errors.
  rewrite <- (listed_check TALENT_DISCIPLINES) by reflexivity.
  rewrite <- (listed_check VENDOR_TYPES) by reflexivity.
  rewrite <- (jsstring_eqb_eq (stripHtml (get b (lit "type"))) (lit "talent")).
  rewrite <- (jsstring_eqb_eq (stripHtml (get b (lit "type"))) (lit "vendor")).
  split; split;
    [ intros H | intros [H1 H2]; pick_disjunct
    | intros H | intros [H1 H2]; pick_disjunct ];
    repeat match goal with
           | H : _ \/ _ |- _ => destruct H
           | H : _ /\ _ |- _ => destruct H
           end;
    try other_message; split; assumption.
Qed.

Lemma push_if_subsequence (c : bool) (msg : string)
      (errors prefix : list jsstring) :
  subsequence errors prefix ->
  subsequence (push_if c msg errors) (prefix ++ [lit msg]).
Proof.
  intros H. unfold push_if.
  destruct c; apply (subsequence_snoc _ _ (lit msg) H).
Qed.

Lemma all_messages_NoDup : NoDup all_messages.
Proof.
  unfold all_messages.
  repeat (constructor;
          [ simpl; intros H;
            repeat destruct H as [H | H];
            try contradiction; vm_compute in H; discriminate H | ]).
  constructor.
Qed.

(** X9. The messages of a validation failure come in the order of the
    checks in the source, and none comes twice. *)
Theorem validation_errors_ordered (b : value) :
  subsequence (validation_errors URL_parses b) all_messages
  /\ NoDup (validation_errors URL_parses b).
Proof.
  assert (H : subsequence (validation_errors URL_parses b) all_messages).
  { unfold validation_errors. cbv zeta.
    change all_messages
      with (((((((((([] ++ [lit "Invalid application type"])
                    ++ [lit "Name is required (min 2 characters)"])
                   ++ [lit "Valid email is required"])
                  ++ [lit "Bio must be at least 50 characters"])
                 ++ [lit "Primary discipline is required"])
                ++ [lit "Vendor type is required"])
               ++ [lit "Invalid website URL"])
              ++ [lit "Invalid portfolio URL"])
             ++ [lit "Invalid LinkedIn URL"])).
    do 3 apply push_if_subsequence.
    destruct (jsstring_eqb _ (lit "vendor"));
      [apply push_if_subsequence | apply subsequence_snoc];
      (destruct (jsstring_eqb _ (lit "talent"));
       [apply push_if_subsequence | apply subsequence_snoc]);
      do 4 apply push_if_subsequence; constructor. }
  split; [exact H|].
  exact (subsequence_NoDup _ _ H all_messages_NoDup).
Qed.

(** ** The paths through the handler *)

(** X10. Any method but POST is answered before the configuration and
    the body are looked at: OPTIONS with 200 and no body, every other
    method with 405 [{error: "Method not allowed"}]; nothing is logged or
    sent. *)
Theorem method_gate (env : environment) (req : request) :
  method req <> lit "POST" ->
  handler URL_parses fetch env req =
  if jsstring_eqb (method req) (lit "OPTIONS") then
    {| reply := respond req 200 None; trace := [] |}
  else
    {| reply := respond req 405 (Some (obj_error "Method not allowed"));
       trace := [] |}.
Proof.
  intros Hm. unfold handler.
  destruct (jsstring_eqb (method req) (lit "OPTIONS")); [reflexivity|].
  destruct (jsstring_eqb (method req) (lit "POST")) eqn:E; [|reflexivity].
  apply jsstring_eqb_eq in E. contradiction.
Qed.

(** X11. Every response, whatever the origin and the outcome, advertises
    the methods [POST, OPTIONS] and the header [Content-Type]. *)
Theorem cors_methods_advertised (env : environment) (req : request) :
  let hs := headers (reply (handler URL_parses fetch env req)) in
  header_value (lit "Access-Control-Allow-Methods") hs = Some (lit "POST, OPTIONS")
  /\ header_value (lit "Access-Control-Allow-Headers") hs = Some (lit "Content-Type").
Proof.
  cbv zeta. rewrite (handler_headers URL_parses fetch). unfold cors_headers.
  destruct (origin_allowed (request_origin req)); split; reflexivity.
Qed.

(** X12. The honeypot looks at the raw value: any truthy [website_url],
    also one that is not a string or that sanitizes to the empty string,
    gets 200 [{ok: true}] with nothing validated and nothing sent. *)
Theorem honeypot_raw_value (env : environment) (req : request) (b : value) :
  method req = lit "POST" ->
  is_configured env = true ->
  parsed_body req = Some b ->
  ToBoolean (get b (lit "website_url")) = true ->
  handler URL_parses fetch env req =
  {| reply := respond req 200 (Some obj_ok); trace := [] |}.
Proof.
  intros Hm Hc Hb Hw.
  destruct (handler_POST URL_parses fetch env req Hm Hc) as (u & k & _ & _ & ->).
  unfold try_block. rewrite Hb.
  rewrite (get_defined b (lit "website_url")), Hw; [reflexivity|].
  intros E. rewrite E in Hw. discriminate.
Qed.

(** What a POST that passes the honeypot gate and validation does. *)
Lemma handler_accepted (env : environment) (req : request) (b : value)
      (u k : jsstring) :
  method req = lit "POST" ->
  is_configured env = true ->
  SUPABASE_URL env = Some u ->
  SUPABASE_SERVICE_ROLE_KEY env = Some k ->
  parsed_body req = Some b ->
  ToBoolean b = true ->
  ToBoolean (get b (lit "website_url")) = false ->
  validation_errors URL_parses b = [] ->
  handler URL_parses fetch env req =
  match build_row req b with
  | None =>
      {| reply := respond req 500 (Some (obj_error "Internal server error"));
         trace := [ConsoleError (lit "Application handler error:")] |}
  | Some row =>
      let call := insert_request u k row in
      match fetch call with
      | Responded ok _ text =>
          if ok then
            {| reply := respond req 200 (Some obj_ok); trace := [Fetched call] |}
          else
            match text with
            | Some _ =>
                {| reply := respond req 500
                              (Some (obj_error "Failed to save application"));
                   trace := [Fetched call;
                             ConsoleError (lit "Supabase insert error:")] |}
            | None =>
                {| reply := respond req 500
                              (Some (obj_error "Internal server error"));
                   trace := [Fetched call;
                             ConsoleError (lit "Application handler error:")] |}
            end
      | Rejected =>
          {| reply := respond req 500 (Some (obj_error "Internal server error"));
             trace := [Fetched call;
                       ConsoleError (lit "Application handler error:")] |}
      end
  end.
Proof.
  intros Hm Hc Hu Hk Hb Ht Hw He.
  destruct (handler_POST URL_parses fetch env req Hm Hc)
    as (u' & k' & Hu' & Hk' & ->).
  rewrite Hu in Hu'. rewrite Hk in Hk'.
  injection Hu' as <-. injection Hk' as <-.
  unfold try_block. rewrite Hb, Ht, Hw, He. cbv zeta. simpl negb. cbv iota.
  change (0 <? List.length (@nil jsstring))%nat with false. cbv iota.
  destruct (build_row req b) as [row|]; [|reflexivity].
  destruct (fetch (insert_request u k row)) as [ok code text|];
    [destruct ok; [|destruct text]|]; reflexivity.
Qed.

(** X13. A valid application whose row is built (line 120 did not throw)
    and accepted by the persistence API is answered 200 [{ok: true}]
    after exactly one call: a POST to [<base URL>/rest/v1/applications]
    that carries the row and the service credential as [apikey] and as
    bearer token. *)
Theorem accepted_submission_saved (env : environment) (req : request)
        (b row : value) (u k : jsstring) (code : N) (text : option jsstring) :
  method req = lit "POST" ->
  is_configured env = true ->
  SUPABASE_URL env = Some u ->
  SUPABASE_SERVICE_ROLE_KEY env = Some k ->
  parsed_body req = Some b ->
  ToBoolean b = true ->
  ToBoolean (get b (lit "website_url")) = false ->
  validation_errors URL_parses b = [] ->
  build_row req b = Some row ->
  fetch (insert_request u k row) = Responded true code text ->
  handler URL_parses fetch env req =
  {| reply := respond req 200 (Some obj_ok);
     trace :=
       [Fetched {| fetch_url := u ++ lit "/rest/v1/applications";
                   fetch_method := lit "POST";
                   fetch_headers :=
                     [ (lit "Content-Type", lit "application/json");
                       (lit "apikey", k);
                       (lit "Authorization", lit "Bearer " ++ k);
                       (lit "Prefer", lit "return=minimal") ];
                   fetch_row := row |}] |}.
Proof.
  intros Hm Hc Hu Hk Hb Ht Hw He Hr Hf.
  rewrite (handler_accepted env req b u k Hm Hc Hu Hk Hb Ht Hw He), Hr.
  cbv zeta. rewrite Hf. reflexivity.
Qed.

(** X14. When the row of a valid application is built and the persistence
    API does not accept it, the caller gets a 500 with a fixed message and
    nothing of the upstream answer: a response that is not ok gives
    [{error: "Failed to save application"}] and is logged; a call that
    fails altogether, or an answer whose text cannot be read, gives
    [{error: "Internal server error"}]. The call is not repeated. *)
Theorem upstream_failure_reported (env : environment) (req : request)
        (b row : value) (u k : jsstring) :
  method req = lit "POST" ->
  is_configured env = true ->
  SUPABASE_URL env = Some u ->
  SUPABASE_SERVICE_ROLE_KEY env = Some k ->
  parsed_body req = Some b ->
  ToBoolean b = true ->
  ToBoolean (get b (lit "website_url")) = false ->
  validation_errors URL_parses b = [] ->
  build_row req b = Some row ->
  let call := insert_request u k row in
  (forall code text,
      fetch call = Responded false code (Some text) ->
      handler URL_parses fetch env req =
      {| reply := respond req 500 (Some (obj_error "Failed to save application"));
         trace := [Fetched call; ConsoleError (lit "Supabase insert error:")] |})
  /\ (fetch call = Rejected \/ (exists code, fetch call = Responded false code None) ->
      handler URL_parses fetch env req =
      {| reply := respond req 500 (Some (obj_error "Internal server error"));
         trace := [Fetched call; ConsoleError (lit "Application handler error:")] |}).
Proof.
  intros Hm Hc Hu Hk Hb Ht Hw He Hr.
  rewrite (handler_accepted env req b u k Hm Hc Hu Hk Hb Ht Hw He), Hr.
  cbv zeta. split.
  - intros code text Hf. rewrite Hf. reflexivity.
  - intros [Hf | [code Hf]]; rewrite Hf; reflexivity.
Qed.

(** X15. No request makes the handler call the persistence API more than
    once. *)
Theorem at_most_one_fetch (env : environment) (req : request) :
  (count_fetches (trace (handler URL_parses fetch env req)) <= 1)%nat.
Proof.
  unfold handler, try_block.
  repeat destruct_inner; simpl; lia.
Qed.

(** X16. The persistence API is called only for a POST, with the
    configuration present, whose body is there, has an empty honeypot and
    passes every check; the call carries the row built from that body. *)
Theorem fetch_only_when_valid (env : environment) (req : request)
        (r : fetch_request) :
  In (Fetched r) (trace (handler URL_parses fetch env req)) ->
  method req = lit "POST"
  /\ is_configured env = true
  /\ exists b,
      parsed_body req = Some b
      /\ ToBoolean b = true
      /\ ToBoolean (get b (lit "website_url")) = false
      /\ validation_errors URL_parses b = []
      /\ build_row req b = Some (fetch_row r).
Proof.
  unfold handler, is_configured.
  destruct (jsstring_eqb (method req) (lit "OPTIONS")); [intros []|].
  destruct (jsstring_eqb (method req) (lit "POST")) eqn:Em; [|intros []].
  apply jsstring_eqb_eq in Em. simpl negb. cbv iota.
  destruct (ToBoolean (env_var (SUPABASE_URL env))); [|intros []].
  destruct (ToBoolean (env_var (SUPABASE_SERVICE_ROLE_KEY env))); [|intros []].
  simpl orb. cbv iota. unfold try_block.
  destruct (parsed_body req) as [b|] eqn:Eb; [|intros [H|[]]; discriminate].
  destruct (ToBoolean b) eqn:Et; [|intros []].
  destruct (ToBoolean (get b (lit "website_url"))) eqn:Ew; [intros []|].
  simpl negb. cbv iota.
  destruct (validation_errors URL_parses b) as [|e errors] eqn:Ee;
    [|intros []].
  change (0 <? List.length (@nil jsstring))%nat with false. cbv iota.
  destruct (build_row req b) as [row|] eqn:Er;
    [|intros [H|[]]; discriminate].
  cbv zeta.
  match goal with
  | |- context [fetch ?c] => set (call := c)
  end.
  intros Hin.
  assert (E : r = call).
  { revert Hin. destruct (fetch call) as [ok code text|];
      [destruct (negb ok); [destruct text|]|]; simpl; intros Hin;
      repeat destruct Hin as [Hin|Hin];
      try discriminate; try contradiction; congruence. }
  split; [assumption|]. split; [reflexivity|].
  exists b. rewrite E. repeat split; assumption || reflexivity.
Qed.

(** X17. The status of a response is 200, 400, 405 or 500, and only the
    answer to OPTIONS has no JSON body. *)
Theorem status_codes (env : environment) (req : request) :
  In (status (reply (handler URL_parses fetch env req))) [200; 400; 405; 500]%N
  /\ (json (reply (handler URL_parses fetch env req)) = None <->
      method req = lit "OPTIONS").
Proof.
  rewrite <- jsstring_eqb_eq. unfold handler.
  destruct (jsstring_eqb (method req) (lit "OPTIONS"));
    [simpl; intuition|].
  unfold try_block.
  repeat destruct_inner; simpl; (split; [auto 6 | split; discriminate]).
Qed.

(** ** More on the row *)

(** What an application without validation errors satisfies. *)
Lemma validation_passed (b : value) :
  validation_errors URL_parses b = [] ->
  (2 <= List.length (stripHtml (get b (lit "name"))))%nat
  /\ isValidEmail (stripHtml (get b (lit "email"))) = true
  /\ (50 <= List.length (stripHtml (get b (lit "bio"))))%nat
  /\ (stripHtml (get b (lit "type")) = lit "talent" ->
      In (stripHtml (get b (lit "primary_discipline"))) TALENT_DISCIPLINES)
  /\ (stripHtml (get b (lit "type")) = lit "vendor" ->
      In (stripHtml (get b (lit "vendor_type"))) VENDOR_TYPES)
  /\ (forall k, In k [lit "website"; lit "portfolio_url"; lit "linkedin_url"] ->
                ToBoolean (get b k) = true ->
                exists s, ToString (get b k) = Some s /\ URL_parses s = true).
Proof.
  intros He.
  assert (Hno : forall m, ~ In m (validation_errors URL_parses b))
    by (rewrite He; auto).
  assert (Hout : forall m P, (P -> In m (validation_errors URL_parses b)) -> ~ P)
    by (intros m P HP Hp; exact (Hno m (HP Hp))).
  split; [|split; [|split; [|split; [|split]]]].
  - destruct (le_lt_dec 2 (List.length (stripHtml (get b (lit "name")))))
      as [H | H]; [assumption|].
    exfalso. revert H. apply (Hout (lit "Name is required (min 2 characters)")).
    intros H. apply too_short in H; [|lia].
    apply In_validation_errors. pick_disjunct.
  - destruct (isValidEmail (stripHtml (get b (lit "email")))) eqn:H;
      [reflexivity|].
    exfalso. revert H. apply (Hout (lit "Valid email is required")).
    intros H. apply In_validation_errors.
    assert (H' : empty (stripHtml (get b (lit "email")))
                 || negb (isValidEmail (stripHtml (get b (lit "email")))) = true)
      by (rewrite H; apply orb_true_r).
    pick_disjunct.
  - destruct (le_lt_dec 50 (List.length (stripHtml (get b (lit "bio")))))
      as [H | H]; [assumption|].
    exfalso. revert H. apply (Hout (lit "Bio must be at least 50 characters")).
    intros H. apply too_short in H; [|lia].
    apply In_validation_errors. pick_disjunct.
  - intros Ht. apply includes_In.
    destruct (includes TALENT_DISCIPLINES
                       (stripHtml (get b (lit "primary_discipline")))) eqn:H;
      [reflexivity|].
    exfalso. revert H. apply (Hout (lit "Primary discipline is required")).
    intros H. apply In_validation_errors.
    apply jsstring_eqb_eq in Ht.
    assert (H' : empty (stripHtml (get b (lit "primary_discipline")))
                 || negb (includes TALENT_DISCIPLINES
                            (stripHtml (get b (lit "primary_discipline")))) = true)
      by (rewrite H; apply orb_true_r).
    pick_disjunct.
  - intros Ht. apply includes_In.
    destruct (includes VENDOR_TYPES
                       (stripHtml (get b (lit "vendor_type")))) eqn:H;
      [reflexivity|].
    exfalso. revert H. apply (Hout (lit "Vendor type is required")).
    intros H. apply In_validation_errors.
    apply jsstring_eqb_eq in Ht.
    assert (H' : empty (stripHtml (get b (lit "vendor_type")))
                 || negb (includes VENDOR_TYPES
                            (stripHtml (get b (lit "vendor_type")))) = true)
      by (rewrite H; apply orb_true_r).
    pick_disjunct.
  - intros k0 Hk Htrue.
    destruct (isValidUrl URL_parses (get b k0)) eqn:H.
    { unfold isValidUrl in H. rewrite Htrue in H. simpl in H.
      destruct (ToString (get b k0)) as [s|]; [eauto | discriminate]. }
    exfalso.
    assert (H' : ToBoolean (get b k0)
                 && negb (isValidUrl URL_parses (get b k0)) = true)
      by (rewrite Htrue, H; reflexivity).
    destruct Hk as [<- | [<- | [<- | []]]].
    + apply (Hno (lit "Invalid website URL")).
      apply In_validation_errors. pick_disjunct.
    + apply (Hno (lit "Invalid portfolio URL")).
      apply In_validation_errors. pick_disjunct.
    + apply (Hno (lit "Invalid LinkedIn URL")).
      apply In_validation_errors. pick_disjunct.
Qed.

(** X18. The row of every accepted submission holds a name of at least 2
    code units, an email that [isValidEmail] accepts, a bio of at least
    50 code units and, for its type, a primary discipline from the list
    of talent disciplines or a vendor type from the list of vendor
    types. *)
Theorem accepted_row_fields_valid (env : environment) (req : request)
        (r : fetch_request) :
  In (Fetched r) (trace (handler URL_parses fetch env req)) ->
  exists props name email bio,
    fetch_row r = VObj props
    /\ lookup (lit "name") props = Some (VStr name)
    /\ (2 <= List.length name)%nat
    /\ lookup (lit "email") props = Some (VStr email)
    /\ isValidEmail email = true
    /\ lookup (lit "bio") props = Some (VStr bio)
    /\ (50 <= List.length bio)%nat
    /\ ((lookup (lit "type") props = Some (VStr (lit "talent"))
         /\ exists d, lookup (lit "primary_discipline") props = Some (VStr d)
                      /\ In d TALENT_DISCIPLINES)
        \/ (lookup (lit "type") props = Some (VStr (lit "vendor"))
            /\ exists v, lookup (lit "vendor_type") props = Some (VStr v)
                         /\ In v VENDOR_TYPES)).
Proof.
  intros Hin.
  apply handler_fetched in Hin as (b & u & k & row & _ & Hv & Hr & ->).
  destruct (validation_passed b Hv) as (Hn & Hm & Hb & Hd & Hvt & _).
  destruct (validation_errors_nil _ _ Hv) as [Ht | Ht]; simpl fetch_row.
  - rewrite (build_row_talent req b Ht) in Hr.
    destruct (ToNumber (get b (lit "years_experience"))) as [years|];
      [|discriminate].
    injection Hr as <-.
    exists (common_properties req b
            ++ [ (lit "primary_discipline",
                   VStr (stripHtml (get b (lit "primary_discipline"))));
                 (lit "disciplines", strip_array (get b (lit "disciplines")));
                 (lit "years_experience", or_else (VNum years) VNull) ]),
      (stripHtml (get b (lit "name"))), (stripHtml (get b (lit "email"))),
      (stripHtml (get b (lit "bio"))).
    repeat (split; [first [reflexivity | assumption]|]).
    left. split; [simpl; rewrite Ht; reflexivity|].
    exists (stripHtml (get b (lit "primary_discipline"))).
    split; [reflexivity | auto].
  - rewrite (build_row_vendor req b Ht) in Hr. injection Hr as <-.
    exists (common_properties req b
            ++ [ (lit "vendor_type", VStr (stripHtml (get b (lit "vendor_type"))));
                 (lit "services_offered",
                   strip_array (get b (lit "services_offered"))) ]),
      (stripHtml (get b (lit "name"))), (stripHtml (get b (lit "email"))),
      (stripHtml (get b (lit "bio"))).
    repeat (split; [first [reflexivity | assumption]|]).
    right. split; [simpl; rewrite Ht; reflexivity|].
    exists (stripHtml (get b (lit "vendor_type"))).
    split; [reflexivity | auto].
Qed.

(** X19. An accepted submission may carry URL fields that are not URLs
    only if they are falsy: every truthy raw [website], [portfolio_url]
    and [linkedin_url] of its body can be converted to a string, and
    that string parses as an absolute URL. *)
Theorem accepted_urls_parse (env : environment) (req : request)
        (r : fetch_request) (b : value) :
  In (Fetched r) (trace (handler URL_parses fetch env req)) ->
  parsed_body req = Some b ->
  forall k, In k [lit "website"; lit "portfolio_url"; lit "linkedin_url"] ->
            ToBoolean (get b k) = true ->
            exists s, ToString (get b k) = Some s /\ URL_parses s = true.
Proof.
  intros Hin Hb.
  apply handler_fetched in Hin as (b' & u & k & row & Hb' & Hv & _).
  rewrite Hb in Hb'. injection Hb' as <-.
  apply (validation_passed b Hv).
Qed.

(** The properties that [build_row] adds for the type do not touch the
    ones the row starts with; and the row is built unless line 120
    throws. *)
Lemma build_row_common (req : request) (b : value) :
  match build_row req b with
  | Some row =>
      exists props,
        row = VObj props
        /\ forall k, In k (map fst (common_properties req b)) ->
                     lookup k props = lookup k (common_properties req b)
  | None => years_experience_throws b
  end.
Proof.
  unfold build_row, years_experience_throws. cbv zeta.
  destruct (jsstring_eqb (stripHtml (get b (lit "type"))) (lit "talent")) eqn:Et;
    [apply jsstring_eqb_eq in Et;
     destruct (ToNumber (get b (lit "years_experience")));
     [|split; [assumption | reflexivity]]|];
    destruct (jsstring_eqb (stripHtml (get b (lit "type"))) (lit "vendor"));
    eexists; (split; [reflexivity|]);
    intros k Hk; simpl in Hk;
    repeat (destruct Hk as [<- | Hk]; [reflexivity|]);
    destruct Hk.
Qed.

Lemma or_null_value (s : jsstring) :
  or_null s = if empty s then VNull else VStr s.
Proof. unfold or_null, or_else, empty. simpl. destruct (jsstring_eqb s []); reflexivity. Qed.

(** X20. A row is built unless line 120 throws, and each of its optional
    text fields ([phone], [location], [company], [website],
    [portfolio_url], [linkedin_url], [referral_source]) is [null] when the
    submitted value is absent, not a string or empty after sanitization,
    and the sanitized string otherwise. *)
Theorem optional_fields_null_or_sanitized (req : request) (b : value) (k : jsstring) :
  In k optional_fields ->
  match build_row req b with
  | Some row =>
      exists props,
        row = VObj props
        /\ lookup k props
           = Some (if empty (stripHtml (get b k)) then VNull
                   else VStr (stripHtml (get b k)))
  | None => years_experience_throws b
  end.
Proof.
  intros Hk. pose proof (build_row_common req b) as H.
  destruct (build_row req b) as [row|]; [|exact H].
  destruct H as (props & E & L).
  exists props. split; [exact E|]. rewrite L, <- or_null_value.
  - simpl in Hk.
    repeat (destruct Hk as [<- | Hk]; [reflexivity|]).
    destruct Hk.
  - simpl in Hk.
    repeat (destruct Hk as [<- | Hk]; [simpl; auto 15|]).
    destruct Hk.
Qed.

(** X21. A row is built unless line 120 throws. Its [ip_address] is the
    [x-forwarded-for] header when it is there and not empty, else the
    [x-real-ip] header when it is there and not empty, else [null]; its
    [user_agent] is the [user-agent] header when it is there and not
    empty, else [null]. *)
Theorem request_metadata_fields (req : request) (b : value) :
  let present (h : option jsstring) :=
    match h with
    | Some (c :: s) => Some (c :: s)
    | _ => None
    end in
  let h := req_headers req in
  match build_row req b with
  | Some row =>
      exists props,
        row = VObj props
        /\ lookup (lit "ip_address") props
           = Some match present (x_forwarded_for h), present (x_real_ip h) with
                  | Some ip, _ => VStr ip
                  | None, Some ip => VStr ip
                  | None, None => VNull
                  end
        /\ lookup (lit "user_agent") props
           = Some match present (user_agent h) with
                  | Some ua => VStr ua
                  | None => VNull
                  end
  | None => years_experience_throws b
  end.
Proof.
  cbv zeta. pose proof (build_row_common req b) as H.
  destruct (build_row req b) as [row|]; [|exact H].
  destruct H as (props & E & L).
  exists props. split; [exact E|].
  rewrite (L (lit "ip_address")), (L (lit "user_agent")) by (simpl; auto 15).
  change (lookup (lit "ip_address") (common_properties req b))
    with (Some (or_else (or_else (header (x_forwarded_for (req_headers req)))
                                 (header (x_real_ip (req_headers req))))
                        VNull)).
  change (lookup (lit "user_agent") (common_properties req b))
    with (Some (or_else (header (user_agent (req_headers req))) VNull)).
  destruct (x_forwarded_for (req_headers req)) as [[|? ?]|],
           (x_real_ip (req_headers req)) as [[|? ?]|],
           (user_agent (req_headers req)) as [[|? ?]|];
    split; reflexivity.
Qed.

(** X22. The array fields of a row. [disciplines], in a talent's row, and
    [services_offered], in a vendor's, are [null] when the submitted value
    is not an array; for an array the field is the array of the sanitized
    elements that are not empty, each as often and in the order in which
    it was submitted: an element that is not a string, or empty after
    sanitization, is dropped, and nothing else is. *)
Theorem array_field_values (req : request) (b : value)
        (props : list (jsstring * value)) :
  build_row req b = Some (VObj props) ->
  let field (submitted : value) : value :=
    match submitted with
    | VArr elems =>
        VArr (map VStr (filter (fun s => negb (jsstring_eqb s []))
                               (map stripHtml elems)))
    | _ => VNull
    end in
  (stripHtml (get b (lit "type")) = lit "talent" ->
   lookup (lit "disciplines") props
   = Some (field (get b (lit "disciplines"))))
  /\ (stripHtml (get b (lit "type")) = lit "vendor" ->
      lookup (lit "services_offered") props
      = Some (field (get b (lit "services_offered")))).
Proof.
  intros Hr. cbv zeta. split; intros Ht.
  - rewrite (build_row_talent req b Ht) in Hr.
    destruct (ToNumber (get b (lit "years_experience"))); [|discriminate].
    injection Hr as <-. reflexivity.
  - rewrite (build_row_vendor req b Ht) in Hr.
    injection Hr as <-. reflexivity.
Qed.

(** X23. A talent row, built unless line 120 throws, has
    [primary_discipline], [disciplines] and [years_experience] and no
    vendor property; a vendor row has [vendor_type] and
    [services_offered] and no talent property. *)
Theorem type_specific_properties (req : request) (b : value) :
  (stripHtml (get b (lit "type")) = lit "talent" ->
   match build_row req b with
   | Some row =>
       exists props,
         row = VObj props
         /\ map fst props
            = map fst (common_properties req b)
              ++ [lit "primary_discipline"; lit "disciplines";
                  lit "years_experience"]
         /\ lookup (lit "disciplines") props
            = Some (strip_array (get b (lit "disciplines")))
         /\ lookup (lit "vendor_type") props = None
         /\ lookup (lit "services_offered") props = None
   | None => years_experience_throws b
   end)
  /\ (stripHtml (get b (lit "type")) = lit "vendor" ->
      exists props,
        build_row req b = Some (VObj props)
        /\ map fst props
           = map fst (common_properties req b)
             ++ [lit "vendor_type"; lit "services_offered"]
        /\ lookup (lit "services_offered") props
           = Some (strip_array (get b (lit "services_offered")))
        /\ lookup (lit "primary_discipline") props = None
        /\ lookup (lit "disciplines") props = None
        /\ lookup (lit "years_experience") props = None).
Proof.
  split; intros Ht.
  - rewrite (build_row_talent req b Ht). unfold years_experience_throws.
    destruct (ToNumber (get b (lit "years_experience")));
      [|split; [assumption | reflexivity]].
    eexists. split; [reflexivity|]. repeat split; reflexivity.
  - rewrite (build_row_vendor req b Ht). eexists.
    split; [reflexivity|]. repeat split; reflexivity.
Qed.

(** X24. Line 120, in a talent application. When [Number] of the
    submitted [years_experience] returns, the row object holds that number
    if it is neither 0 nor NaN, and [null] otherwise: never 0, NaN or a
    string. When [Number] throws, as it does for an object with a
    property of its own named [toString], no row is built: a request that
    came this far is answered 500 [{error: "Internal server error"}],
    the error is logged and the persistence API is not called. *)
Theorem years_experience_value (env : environment) (req : request) (b : value) :
  stripHtml (get b (lit "type")) = lit "talent" ->
  match ToNumber (get b (lit "years_experience")) with
  | Some years =>
      exists props,
        build_row req b = Some (VObj props)
        /\ lookup (lit "years_experience") props
           = Some match years with
                  | S754_zero _ | S754_nan => VNull
                  | x => VNum x
                  end
  | None =>
      build_row req b = None
      /\ (method req = lit "POST" ->
          is_configured env = true ->
          parsed_body req = Some b ->
          ToBoolean (get b (lit "website_url")) = false ->
          validation_errors URL_parses b = [] ->
          handler URL_parses fetch env req =
          {| reply := respond req 500 (Some (obj_error "Internal server error"));
             trace := [ConsoleError (lit "Application handler error:")] |})
  end.
Proof.
  intros Ht. pose proof (build_row_talent req b Ht) as Hr.
  destruct (ToNumber (get b (lit "years_experience"))) as [years|].
  - eexists. split; [exact Hr|].
    change (lookup (lit "years_experience") _)
      with (Some (or_else (VNum years) VNull)).
    unfold or_else. simpl. destruct years; reflexivity.
  - split; [exact Hr|]. intros Hm Hc Hb Hw He.
    destruct (handler_POST URL_parses fetch env req Hm Hc)
      as (u & k & _ & _ & ->).
    unfold try_block. rewrite Hb, Hw, He, Hr.
    assert (Hbody : ToBoolean b = true).
    { apply (get_defined b (lit "type")). intros E. rewrite E in Ht.
      vm_compute in Ht. discriminate Ht. }
    rewrite Hbody. reflexivity.
Qed.

End MoreHandlerProperties.

(** ** These properties at concrete requests *)

Lemma method_gate_example :
  handler URL_constructs accepting no_env
          {| method := lit "DELETE"; req_headers := proxied; body := VUndefined |}
  = {| reply := respond {| method := lit "DELETE"; req_headers := proxied;
                           body := VUndefined |}
                        405 (Some (obj_error "Method not allowed"));
       trace := [] |}.
Proof.
  apply (method_gate URL_constructs accepting no_env
           {| method := lit "DELETE"; req_headers := proxied; body := VUndefined |}).
  intros H. vm_compute in H. discriminate H.
Defined.

(** A honeypot value that sanitizes to the empty string. *)
Lemma honeypot_raw_value_example :
  stripHtml (VStr (lit "<i></i>")) = []
  /\ handler URL_constructs accepting example_env
             (post no_headers (VObj [(lit "website_url", VStr (lit "<i></i>"))]))
     = {| reply := respond (post no_headers
                                 (VObj [(lit "website_url", VStr (lit "<i></i>"))]))
                           200 (Some obj_ok);
          trace := [] |}.
Proof.
  split; [reflexivity|].
  apply (honeypot_raw_value URL_constructs accepting example_env
           (post no_headers (VObj [(lit "website_url", VStr (lit "<i></i>"))]))
           (VObj [(lit "website_url", VStr (lit "<i></i>"))]));
    reflexivity.
Defined.

(** Scenario 1: a talent application is stored. *)
Lemma accepted_submission_saved_example :
  exists row,
    build_row (post proxied (talent_body [])) (talent_body []) = Some row
    /\ handler URL_constructs accepting example_env (post proxied (talent_body []))
       = {| reply := respond (post proxied (talent_body [])) 200 (Some obj_ok);
            trace :=
              [Fetched {| fetch_url := lit "https://db.example"
                                       ++ lit "/rest/v1/applications";
                          fetch_method := lit "POST";
                          fetch_headers :=
                            [ (lit "Content-Type", lit "application/json");
                              (lit "apikey", lit "service-key");
                              (lit "Authorization",
                                lit "Bearer " ++ lit "service-key");
                              (lit "Prefer", lit "return=minimal") ];
                          fetch_row := row |}] |}.
Proof.
  eexists. split; [vm_compute; reflexivity|].
  apply (accepted_submission_saved URL_constructs accepting example_env
           (post proxied (talent_body [])) (talent_body []) _
           (lit "https://db.example") (lit "service-key") 201 (Some []));
    reflexivity.
Defined.

Lemma upstream_failure_reported_example :
  reply (handler URL_constructs refusing example_env (post proxied (talent_body [])))
  = respond (post proxied (talent_body [])) 500
            (Some (obj_error "Failed to save application"))
  /\ reply (handler URL_constructs unreachable example_env
                    (post proxied (talent_body [])))
     = respond (post proxied (talent_body [])) 500
               (Some (obj_error "Internal server error")).
Proof.
  split.
  - rewrite (proj1 (upstream_failure_reported URL_constructs refusing example_env
                      (post proxied (talent_body [])) (talent_body []) _
                      (lit "https://db.example") (lit "service-key")
                      eq_refl eq_refl eq_refl eq_refl eq_refl eq_refl eq_refl
                      eq_refl eq_refl)
                   409%N (lit "duplicate key value") eq_refl).
    reflexivity.
  - rewrite (proj2 (upstream_failure_reported URL_constructs unreachable example_env
                      (post proxied (talent_body [])) (talent_body []) _
                      (lit "https://db.example") (lit "service-key")
                      eq_refl eq_refl eq_refl eq_refl eq_refl eq_refl eq_refl
                      eq_refl eq_refl)
                   (or_introl eq_refl)).
    reflexivity.
Defined.

Lemma fetch_only_when_valid_example :
  exists r,
    trace (handler URL_constructs accepting example_env
                   (post proxied (vendor_body [])))
    = [Fetched r]
    /\ method (post proxied (vendor_body [])) = lit "POST"
    /\ is_configured example_env = true
    /\ exists b,
        parsed_body (post proxied (vendor_body [])) = Some b
        /\ ToBoolean b = true
        /\ ToBoolean (get b (lit "website_url")) = false
        /\ validation_errors URL_constructs b = []
        /\ build_row (post proxied (vendor_body [])) b = Some (fetch_row r).
Proof.
  eexists. split; [vm_compute; reflexivity|].
  apply (fetch_only_when_valid URL_constructs accepting example_env
           (post proxied (vendor_body []))).
  left. vm_compute. reflexivity.
Defined.

Lemma accepted_row_fields_valid_example :
  exists r,
    trace (handler URL_constructs accepting example_env
                   (post proxied (vendor_body [])))
    = [Fetched r]
    /\ exists props name email bio,
        fetch_row r = VObj props
        /\ lookup (lit "name") props = Some (VStr name)
        /\ (2 <= List.length name)%nat
        /\ lookup (lit "email") props = Some (VStr email)
        /\ isValidEmail email = true
        /\ lookup (lit "bio") props = Some (VStr bio)
        /\ (50 <= List.length bio)%nat
        /\ ((lookup (lit "type") props = Some (VStr (lit "talent"))
             /\ exists d, lookup (lit "primary_discipline") props = Some (VStr d)
                          /\ In d TALENT_DISCIPLINES)
            \/ (lookup (lit "type") props = Some (VStr (lit "vendor"))
                /\ exists v, lookup (lit "vendor_type") props = Some (VStr v)
                             /\ In v VENDOR_TYPES)).
Proof.
  eexists. split; [vm_compute; reflexivity|].
  apply (accepted_row_fields_valid URL_constructs accepting example_env
           (post proxied (vendor_body []))).
  left. vm_compute. reflexivity.
Defined.

Lemma accepted_urls_parse_example :
  exists s,
    ToString (get (talent_body [(lit "website", VStr (lit "https://jo.example/work"))])
                  (lit "website"))
    = Some s
    /\ URL_constructs s = true.
Proof.
  assert (Hin : exists r,
             In (Fetched r)
                (trace (handler URL_constructs accepting example_env
                          (post proxied
                             (talent_body [(lit "website",
                                             VStr (lit "https://jo.example/work"))])))))
    by (eexists; left; vm_compute; reflexivity).
  destruct Hin as [r Hin].
  apply (accepted_urls_parse URL_constructs accepting example_env
           (post proxied
                 (talent_body [(lit "website", VStr (lit "https://jo.example/work"))]))
           r
           (talent_body [(lit "website", VStr (lit "https://jo.example/work"))])
           Hin).
  - reflexivity.
  - left. reflexivity.
  - reflexivity.
Defined.

Lemma optional_fields_example :
  exists props,
    build_row (post proxied (talent_body [(lit "phone", VStr (lit " <b></b> "))]))
              (talent_body [(lit "phone", VStr (lit " <b></b> "))])
    = Some (VObj props)
    /\ lookup (lit "phone") props = Some VNull.
Proof.
  destruct (optional_fields_null_or_sanitized
              (post proxied (talent_body [(lit "phone", VStr (lit " <b></b> "))]))
              (talent_body [(lit "phone", VStr (lit " <b></b> "))])
              (lit "phone") (or_introl eq_refl))
    as (props & E & L).
  exists props. split; [rewrite <- E; reflexivity | exact L].
Defined.

Lemma request_metadata_fields_example :
  exists props,
    build_row (post proxied (vendor_body [])) (vendor_body []) = Some (VObj props)
    /\ lookup (lit "ip_address") props = Some (VStr (lit "203.0.113.7"))
    /\ lookup (lit "user_agent") props = Some (VStr (lit "Mozilla/5.0")).
Proof.
  destruct (request_metadata_fields (post proxied (vendor_body []))
                                    (vendor_body []))
    as (props & E & L).
  exists props. split; [rewrite <- E; reflexivity | exact L].
Defined.

Lemma type_specific_properties_example :
  exists props,
    build_row (post proxied (vendor_body [])) (vendor_body []) = Some (VObj props)
    /\ map fst props
       = map fst (common_properties (post proxied (vendor_body [])) (vendor_body []))
         ++ [lit "vendor_type"; lit "services_offered"]
    /\ lookup (lit "services_offered") props
       = Some (strip_array (get (vendor_body []) (lit "services_offered")))
    /\ lookup (lit "primary_discipline") props = None
    /\ lookup (lit "disciplines") props = None
    /\ lookup (lit "years_experience") props = None.
Proof.
  apply (proj2 (type_specific_properties (post proxied (vendor_body []))
                                         (vendor_body []))).
  reflexivity.
Defined.

(** A number written as text is read; an object with a [toString] of its
    own makes line 120 throw. *)
Lemma years_experience_value_example :
  (exists props,
      build_row (post proxied (talent_body [(lit "years_experience", VStr (lit " 7 "))]))
                (talent_body [(lit "years_experience", VStr (lit " 7 "))])
      = Some (VObj props)
      /\ lookup (lit "years_experience") props
         = Some (VNum (of_decimal false 7 0)))
  /\ handler URL_constructs accepting example_env
             (post proxied
                   (talent_body [(lit "years_experience",
                                   VObj [(lit "toString", VNum (of_decimal false 1 0))])]))
     = {| reply :=
            respond (post proxied
                       (talent_body [(lit "years_experience",
                                       VObj [(lit "toString",
                                               VNum (of_decimal false 1 0))])]))
                    500 (Some (obj_error "Internal server error"));
          trace := [ConsoleError (lit "Application handler error:")] |}.
Proof.
  split.
  - apply (years_experience_value URL_constructs accepting example_env
             (post proxied (talent_body [(lit "years_experience", VStr (lit " 7 "))]))
             (talent_body [(lit "years_experience", VStr (lit " 7 "))])).
    reflexivity.
  - apply (years_experience_value URL_constructs accepting example_env
             (post proxied
                   (talent_body [(lit "years_experience",
                                   VObj [(lit "toString", VNum (of_decimal false 1 0))])]))
             (talent_body [(lit "years_experience",
                             VObj [(lit "toString", VNum (of_decimal false 1 0))])])
             eq_refl);
      reflexivity.
Defined.

(** Elements that are equal after sanitization are all kept. *)
Lemma array_field_values_example :
  exists props,
    build_row (post proxied
                 (talent_body [(lit "disciplines",
                                 VArr [ VStr (lit " <b>Styling</b> "); VNum pos_zero;
                                        VStr (lit "<i>"); VStr (lit "Styling") ])]))
              (talent_body [(lit "disciplines",
                              VArr [ VStr (lit " <b>Styling</b> "); VNum pos_zero;
                                     VStr (lit "<i>"); VStr (lit "Styling") ])])
    = Some (VObj props)
    /\ lookup (lit "disciplines") props
       = Some (VArr [VStr (lit "Styling"); VStr (lit "Styling")]).
Proof.
  eexists. split; [vm_compute; reflexivity|].
  refine (proj1 (array_field_values
                   (post proxied
                      (talent_body [(lit "disciplines",
                                      VArr [ VStr (lit " <b>Styling</b> "); VNum pos_zero;
                                             VStr (lit "<i>"); VStr (lit "Styling") ])]))
                   (talent_body [(lit "disciplines",
                                   VArr [ VStr (lit " <b>Styling</b> "); VNum pos_zero;
                                          VStr (lit "<i>"); VStr (lit "Styling") ])])
                   _ _) _).
  - vm_compute. reflexivity.
  - reflexivity.
Defined.

(** A website that cannot be converted to a string: [new URL] throws, and
    the message is appended. *)
Lemma url_fields_validated_example :
  let website :=
    VArr [ VStr (lit "foo:");
           VObj [(lit "toString", VNum (of_decimal false 1 0))] ] in
  ToString website = None
  /\ In (lit "Invalid website URL")
        (validation_errors URL_constructs (talent_body [(lit "website", website)])).
Proof.
  cbv zeta. split; [reflexivity|].
  apply (proj1 (url_fields_validated URL_constructs
                  (talent_body
                     [(lit "website",
                        VArr [ VStr (lit "foo:");
                               VObj [(lit "toString",
                                       VNum (of_decimal false 1 0))] ])]))).
  split; [reflexivity|]. intros s H. vm_compute in H. discriminate H.
Defined.
